(** * The zygote seccomp policy builder, core/jni/android_os_seccomp.cpp

    A shallow embedding of the filter builder of [android_os_seccomp.cpp]
    (the [__arm__ || __aarch64__] branch) together with an evaluator for
    the classic-BPF instructions the builder and the generated policy
    tables use, and the properties of the assembled program.

    Conventions.
    - Machine integers are [Z]; every narrowing conversion the source
      performs is written out ([u8], [u16], [u32], [size_t]).
    - [std::vector<sock_filter>] is a [list sock_filter]; [push_back] is
      [f ++ [i]], [f.size()] is [length f], [f[i] = x] is [<[i:=x]> f].
    - The kernel and the log are a [World] that is passed explicitly. *)

From Stdlib Require Import ZArith List Lia Bool String.
From stdpp Require Import base list.
Import ListNotations.

Local Open Scope Z_scope.

(** ** Fixed-width integers *)

Definition u8 (z : Z) : Z := z mod 2 ^ 8.
Definition u16 (z : Z) : Z := z mod 2 ^ 16.
Definition u32 (z : Z) : Z := z mod 2 ^ 32.

(** [size_t] of the LP64 build, the mixed 64/32-bit case that the comments
    of [set_seccomp_filter] describe. *)
Definition SIZE_BITS : Z := 64.
Definition size_t (z : Z) : Z := z mod 2 ^ SIZE_BITS.

(** ** Constants of the kernel headers

    [linux/filter.h], [linux/bpf_common.h], [linux/seccomp.h] and
    [linux/audit.h] are not part of this repository; the values below are
    the ones of the kernel UAPI. *)

Definition BPF_LD : Z := 0x00.
Definition BPF_JMP : Z := 0x05.
Definition BPF_RET : Z := 0x06.
Definition BPF_W : Z := 0x00.
Definition BPF_ABS : Z := 0x20.
Definition BPF_JA : Z := 0x00.
Definition BPF_JEQ : Z := 0x10.
Definition BPF_JGT : Z := 0x20.
Definition BPF_JGE : Z := 0x30.
Definition BPF_JSET : Z := 0x40.
Definition BPF_K : Z := 0x00.
Definition BPF_A : Z := 0x10.

Definition SECCOMP_RET_KILL : Z := 0x00000000.
Definition SECCOMP_RET_TRAP : Z := 0x00030000.
Definition SECCOMP_RET_ERRNO : Z := 0x00050000.
Definition SECCOMP_RET_TRACE : Z := 0x7ff00000.
Definition SECCOMP_RET_ALLOW : Z := 0x7fff0000.

Definition AUDIT_ARCH_AARCH64 : Z := 0xC00000B7.
Definition AUDIT_ARCH_ARM : Z := 0x40000028.

(** [struct seccomp_data { int nr; __u32 arch; __u64 instruction_pointer;
    __u64 args[6]; }].  [nr] is kept as the 32-bit word a filter reads. *)
Record seccomp_data := {
  nr : Z;
  arch : Z;
  instruction_pointer : Z;
  args : list Z
}.

(** [#define syscall_nr (offsetof(struct seccomp_data, nr))] and
    [#define arch_nr (offsetof(struct seccomp_data, arch))]. *)
Definition syscall_nr : Z := 0.
Definition arch_nr : Z := 4.

(** ** Instructions *)

(** [struct sock_filter { __u16 code; __u8 jt; __u8 jf; __u32 k; }]. *)
Record sock_filter := {
  code : Z;
  jt : Z;
  jf : Z;
  k : Z
}.

(** [typedef std::vector<sock_filter> filter;] *)
Abbreviation filter := (list sock_filter) (only parsing).

(** [#define BPF_STMT(code, k) { (unsigned short)(code), 0, 0, k }] *)
Definition BPF_STMT (c kv : Z) : sock_filter :=
  {| code := u16 c; jt := 0; jf := 0; k := u32 kv |}.

(** [#define BPF_JUMP(code, k, jt, jf) { (unsigned short)(code), jt, jf, k }] *)
Definition BPF_JUMP (c kv t e : Z) : sock_filter :=
  {| code := u16 c; jt := u8 t; jf := u8 e; k := u32 kv |}.

Definition push_back (f : filter) (i : sock_filter) : filter := f ++ [i].

(** ** The builder functions, in the order of the source *)

Definition Kill (f : filter) : filter :=
  push_back f (BPF_STMT (Z.lor BPF_RET BPF_K) SECCOMP_RET_KILL).

Definition Trap (f : filter) : filter :=
  push_back f (BPF_STMT (Z.lor BPF_RET BPF_K) SECCOMP_RET_TRAP).

(** [retcode] is a [__u16]. *)
Definition Error (f : filter) (retcode : Z) : filter :=
  push_back f (BPF_STMT (Z.lor BPF_RET BPF_K) (SECCOMP_RET_ERRNO + u16 retcode)).

Definition Trace (f : filter) : filter :=
  push_back f (BPF_STMT (Z.lor BPF_RET BPF_K) SECCOMP_RET_TRACE).

Definition Allow (f : filter) : filter :=
  push_back f (BPF_STMT (Z.lor BPF_RET BPF_K) SECCOMP_RET_ALLOW).

Definition AllowSyscall (f : filter) (num : Z) : filter :=
  let f := push_back f (BPF_JUMP (Z.lor (Z.lor BPF_JMP BPF_JEQ) BPF_K) num 0 1) in
  Allow f.

Definition ExamineSyscall (f : filter) : filter :=
  push_back f (BPF_STMT (Z.lor (Z.lor BPF_LD BPF_W) BPF_ABS) syscall_nr).

(** ** The log and the kernel *)

Inductive log_priority := LOG_ERROR | LOG_INFO.

(** One [ALOGE]/[ALOGI] call: the format string and its [%zu] arguments
    (the [strerror(errno)] text of [install_filter] is not kept). *)
Record log_entry := {
  priority : log_priority;
  format : string;
  zu_args : list Z
}.

(** [struct sock_fprog { unsigned short len; struct sock_filter *filter; }];
    the pointer is represented by the vector it points into. *)
Record sock_fprog := {
  len : Z;
  filter_ptr : filter
}.

(** What the process has done to the outside: the
    [prctl(PR_SET_SECCOMP, SECCOMP_MODE_FILTER, &prog)] calls it made and
    the lines it logged, oldest first. *)
Record World := {
  prctl_calls : list sock_fprog;
  logcat : list log_entry
}.

Definition ALOGE (fmt : string) (zs : list Z) (w : World) : World :=
  {| prctl_calls := prctl_calls w;
     logcat := logcat w ++ [{| priority := LOG_ERROR; format := fmt; zu_args := zs |}] |}.

Definition ALOGI (fmt : string) (zs : list Z) (w : World) : World :=
  {| prctl_calls := prctl_calls w;
     logcat := logcat w ++ [{| priority := LOG_INFO; format := fmt; zu_args := zs |}] |}.

Definition record_prctl (prog : sock_fprog) (w : World) : World :=
  {| prctl_calls := prctl_calls w ++ [prog]; logcat := logcat w |}.

Definition vsize (f : filter) : Z := size_t (Z.of_nat (length f)).

(** [f[offset] = ...] on the vector; outside the vector the source has
    undefined behaviour and the model leaves [f] as it is. *)
Definition SetValidateArchitectureJumpTarget (offset : Z) (f : filter) (w : World)
  : Z * filter * World :=
  let jump_length := size_t (vsize f - offset - 1) in
  let u8_jump_length := u8 jump_length in
  if negb (u8_jump_length =? jump_length) then
    let w := ALOGE "Can't set jump greater than 255 - actual jump is %zu" [jump_length] w in
    (-1, f, w)
  else
    let f := <[Z.to_nat offset := BPF_JUMP (Z.lor (Z.lor BPF_JMP BPF_JEQ) BPF_K)
                                           AUDIT_ARCH_ARM u8_jump_length 0]> f in
    (0, f, w).

Definition ValidateArchitectureAndJumpIfNeeded (f : filter) : Z * filter :=
  let f := push_back f (BPF_STMT (Z.lor (Z.lor BPF_LD BPF_W) BPF_ABS) arch_nr) in
  let f := push_back f (BPF_JUMP (Z.lor (Z.lor BPF_JMP BPF_JEQ) BPF_K) AUDIT_ARCH_AARCH64 2 0) in
  let f := push_back f (BPF_JUMP (Z.lor (Z.lor BPF_JMP BPF_JEQ) BPF_K) AUDIT_ARCH_ARM 1 0) in
  let f := Trap f in
  (size_t (vsize f - 2), f).

(** [return -1;] in a function whose return type is [bool]: the integer
    is converted, and every non-zero integer converts to [true]. *)
Definition bool_of_int (z : Z) : bool := negb (z =? 0).

(** How a call of the JNI entry point ends. *)
Inductive termination :=
| returned
| exited (status : Z).

Section Policy.

(** [seccomp_policy.h] (generated, not in this repository) declares
    [arm64_filter], [arm64_filter_size], [arm_filter] and
    [arm_filter_size]; each table is a list and its size the length. *)
Variable arm64_filter : list sock_filter.
Variable arm_filter : list sock_filter.

(** The value the kernel returns for
    [prctl(PR_SET_SECCOMP, SECCOMP_MODE_FILTER, &prog)]. *)
Variable prctl_SET_SECCOMP : sock_fprog -> Z.

Definition install_filter (f : filter) (w : World) : bool * World :=
  let prog := {| len := u16 (vsize f); filter_ptr := f |} in
  let w := record_prctl prog w in
  if prctl_SET_SECCOMP prog <? 0 then
    let w := ALOGE "SECCOMP: Could not set seccomp filter of size %zu: %s" [vsize f] w in
    (false, w)
  else
    let w := ALOGI "SECCOMP: Global filter of size %zu installed" [vsize f] w in
    (true, w).

Definition set_seccomp_filter (w : World) : bool * World :=
  let f : filter := [] in
  let '(offset_to_32bit_filter, f) := ValidateArchitectureAndJumpIfNeeded f in
  (* 64-bit filter *)
  let f := ExamineSyscall f in
  (* for (size_t i = 0; i < arm64_filter_size; ++i) f.push_back(arm64_filter[i]); *)
  let f := fold_left push_back arm64_filter f in
  let f := AllowSyscall f 41 in
  let f := AllowSyscall f 31 in
  let f := AllowSyscall f 30 in
  let f := AllowSyscall f 178 in
  let f := AllowSyscall f 98 in
  let f := AllowSyscall f 220 in
  let f := AllowSyscall f 139 in
  let f := AllowSyscall f 240 in
  let f := AllowSyscall f 128 in
  let f := AllowSyscall f 278 in
  let f := AllowSyscall f 241 in
  let f := AllowSyscall f 130 in
  let f := AllowSyscall f 128 in
  let f := AllowSyscall f 267 in
  let f := Trap f in
  let '(rc, f, w) := SetValidateArchitectureJumpTarget offset_to_32bit_filter f w in
  if negb (rc =? 0) then (bool_of_int (-1), w) else
  (* 32-bit filter *)
  let f := ExamineSyscall f in
  (* for (size_t i = 0; i < arm_filter_size; ++i) f.push_back(arm_filter[i]); *)
  let f := fold_left push_back arm_filter f in
  let f := AllowSyscall f 120 in
  let f := AllowSyscall f 240 in
  let f := AllowSyscall f 119 in
  let f := AllowSyscall f 173 in
  let f := AllowSyscall f 363 in
  let f := AllowSyscall f 224 in
  let f := AllowSyscall f 383 in
  let f := AllowSyscall f 384 in
  let f := AllowSyscall f 190 in
  let f := AllowSyscall f 238 in
  let f := AllowSyscall f 0 in
  let f := AllowSyscall f 42 in
  let f := AllowSyscall f 364 in
  let f := AllowSyscall f 33 in
  let f := AllowSyscall f 195 in
  let f := AllowSyscall f 5 in
  let f := AllowSyscall f 141 in
  let f := AllowSyscall f 217 in
  let f := AllowSyscall f 351 in
  let f := AllowSyscall f 252 in
  let f := AllowSyscall f 85 in
  let f := AllowSyscall f 250 in
  let f := AllowSyscall f 8 in
  let f := AllowSyscall f 10 in
  let f := AllowSyscall f 196 in
  let f := Trap f in
  install_filter f w.

Definition Seccomp_setPolicy (w : World) : termination * World :=
  let '(ok, w) := set_seccomp_filter w in
  if negb ok then
    let w := ALOGE "Failed to set seccomp policy - killing" [] w in
    (exited 1, w)
  else
    (returned, w).

End Policy.

(** ** Evaluation of a filter

    The kernel runs the installed program on a [seccomp_data] with the
    accumulator cleared.  Jumps are forward only, so evaluation is a
    recursion on the instructions still ahead.  The instruction classes
    covered are the ones the builder emits and the generated tables are
    made of: word loads from the [seccomp_data], jumps on a constant and
    returns; any other operation code is a [Fault]. *)

Inductive outcome :=
| Ret (v : Z)                 (* a return instruction gave [v] *)
| Exit (skip : nat) (A : Z)   (* control left the list, [skip] instructions
                                 past its end, with accumulator [A] *)
| Fault.                      (* an instruction outside the model *)

Inductive step_result :=
| Halt (v : Z)
| Next (A : Z) (skip : nat)
| Bad.

(** The 32-bit word of the little-endian [seccomp_data] at byte [off]. *)
Definition load_word (d : seccomp_data) (off : Z) : option Z :=
  if off =? 0 then Some (nr d)
  else if off =? 4 then Some (arch d)
  else if off =? 8 then Some (instruction_pointer d mod 2 ^ 32)
  else if off =? 12 then Some (instruction_pointer d / 2 ^ 32)
  else if (16 <=? off) && (off <? 64) && (off mod 4 =? 0) then
    let a := nth (Z.to_nat ((off - 16) / 8)) (args d) 0 in
    Some (if (off - 16) mod 8 =? 0 then a mod 2 ^ 32 else a / 2 ^ 32)
  else None.

Definition step (d : seccomp_data) (i : sock_filter) (A : Z) : step_result :=
  let c := code i in
  if c =? Z.lor (Z.lor BPF_LD BPF_W) BPF_ABS then
    match load_word d (k i) with
    | Some v => Next v 0
    | None => Bad
    end
  else if c =? Z.lor BPF_JMP BPF_JA then Next A (Z.to_nat (k i))
  else if c =? Z.lor (Z.lor BPF_JMP BPF_JEQ) BPF_K then
    Next A (Z.to_nat (if A =? k i then jt i else jf i))
  else if c =? Z.lor (Z.lor BPF_JMP BPF_JGT) BPF_K then
    Next A (Z.to_nat (if k i <? A then jt i else jf i))
  else if c =? Z.lor (Z.lor BPF_JMP BPF_JGE) BPF_K then
    Next A (Z.to_nat (if k i <=? A then jt i else jf i))
  else if c =? Z.lor (Z.lor BPF_JMP BPF_JSET) BPF_K then
    Next A (Z.to_nat (if Z.land A (k i) =? 0 then jf i else jt i))
  else if c =? Z.lor BPF_RET BPF_K then Halt (k i)
  else if c =? Z.lor BPF_RET BPF_A then Halt A
  else Bad.

(** [run d l skip pc A]: skip [skip] instructions of [l], then execute;
    [pc] is the index of the head of [l] in the whole program.  The result
    is the list of indices of the instructions executed and the outcome. *)
Fixpoint run (d : seccomp_data) (l : list sock_filter) (skip : nat) (pc : nat) (A : Z)
  : list nat * outcome :=
  match l with
  | [] => ([], Exit skip A)
  | i :: rest =>
      match skip with
      | S n => run d rest n (S pc) A
      | O =>
          match step d i A with
          | Halt v => ([pc], Ret v)
          | Bad => ([pc], Fault)
          | Next A' n =>
              let '(t, o) := run d rest n (S pc) A' in (pc :: t, o)
          end
      end
  end.

(** The outcome alone, for a list taken on its own. *)
Definition result (d : seccomp_data) (l : list sock_filter) (skip : nat) (A : Z) : outcome :=
  snd (run d l skip 0 A).

Definition visited (p : filter) (d : seccomp_data) : list nat := fst (run d p 0 0 0).
Definition eval (p : filter) (d : seccomp_data) : outcome := result d p 0 0.

(** ** The policy tables as data *)

(** The numbers of the [AllowSyscall] calls of the 64-bit section and of
    the 32-bit section of [set_seccomp_filter], in source order. *)
Definition arm64_allow_list : list Z :=
  [41; 31; 30; 178; 98; 220; 139; 240; 128; 278; 241; 130; 128; 267].

Definition arm_allow_list : list Z :=
  [120; 240; 119; 173; 363; 224; 383; 384; 190; 238; 0; 42; 364; 33; 195;
   5; 141; 217; 351; 252; 85; 250; 8; 10; 196].

(** The 64-bit list without its second entry for 128 (position 12). *)
Definition arm64_allow_list_once : list Z := delete 12%nat arm64_allow_list.

Inductive architecture := ARM64 | ARM32.

Definition arch_constant (a : architecture) : Z :=
  match a with ARM64 => AUDIT_ARCH_AARCH64 | ARM32 => AUDIT_ARCH_ARM end.

Definition allow_list (a : architecture) : list Z :=
  match a with ARM64 => arm64_allow_list | ARM32 => arm_allow_list end.

Definition baseline (arm64_filter arm_filter : list sock_filter) (a : architecture)
  : list sock_filter :=
  match a with ARM64 => arm64_filter | ARM32 => arm_filter end.

Definition is_u32 (n : Z) : Prop := 0 <= n < 2 ^ 32.

(** ** Shapes of the assembled program *)

Definition LOAD (off : Z) : sock_filter :=
  {| code := 0x20; jt := 0; jf := 0; k := off |}.
Definition JEQ (kv t e : Z) : sock_filter :=
  {| code := 0x15; jt := t; jf := e; k := kv |}.
Definition RET (v : Z) : sock_filter :=
  {| code := 0x06; jt := 0; jf := 0; k := v |}.

Definition allow_pairs (l : list Z) : filter :=
  flat_map (fun n => [JEQ n 0 1; RET SECCOMP_RET_ALLOW]) l.

(** One architecture section: examine the syscall number, the generated
    table, the compare-and-allow pairs, the terminator. *)
Definition section_of (frag : list sock_filter) (al : list Z) : filter :=
  (LOAD syscall_nr :: frag ++ allow_pairs al) ++ [RET SECCOMP_RET_TRAP].

(** The prologue, with [t] the true-skip of the 32-bit compare. *)
Definition dispatcher (t : Z) : filter :=
  [LOAD arch_nr; JEQ AUDIT_ARCH_AARCH64 2 0; JEQ AUDIT_ARCH_ARM t 0; RET SECCOMP_RET_TRAP].

Definition empty_world : World := {| prctl_calls := []; logcat := [] |}.

(** The program [set_seccomp_filter] hands to the kernel when it is run in
    a fresh process, if it hands over one. *)
Definition installed_program (arm64_filter arm_filter : list sock_filter)
    (prctl_SET_SECCOMP : sock_fprog -> Z) : option filter :=
  match prctl_calls (snd (set_seccomp_filter arm64_filter arm_filter prctl_SET_SECCOMP empty_world)) with
  | [prog] => Some (filter_ptr prog)
  | _ => None
  end.

(** The build sequence of [set_seccomp_filter] up to the install call,
    with the numbers of the 64-bit [AllowSyscall] calls as a parameter
    (used to compare the source's list with a variant of it). *)
Definition assemble_with (arm64_filter arm_filter : list sock_filter)
    (allow64 : list Z) : option filter :=
  let '(offset_to_32bit_filter, f) := ValidateArchitectureAndJumpIfNeeded [] in
  let f := ExamineSyscall f in
  let f := fold_left push_back arm64_filter f in
  let f := fold_left AllowSyscall allow64 f in
  let f := Trap f in
  let '(rc, f, _) := SetValidateArchitectureJumpTarget offset_to_32bit_filter f empty_world in
  if negb (rc =? 0) then None else
  let f := ExamineSyscall f in
  let f := fold_left push_back arm_filter f in
  let f := fold_left AllowSyscall arm_allow_list f in
  let f := Trap f in
  Some f.

(** ** What is assumed of a generated table

    A table sits right after a load of the syscall number. *)
Definition fragment_result (frag : list sock_filter) (d : seccomp_data) : outcome :=
  result d frag 0 (nr d).

(** The table allows the call. *)
Definition baseline_allows (frag : list sock_filter) (d : seccomp_data) : Prop :=
  fragment_result frag d = Ret SECCOMP_RET_ALLOW.

(** The table does not decide: control reaches the instruction right
    after it and the accumulator still holds the syscall number. *)
Definition baseline_passes (frag : list sock_filter) (d : seccomp_data) : Prop :=
  fragment_result frag d = Exit 0 (nr d).

(** Modelled from the spec: the generated tables [arm64_filter] and
    [arm_filter] of [seccomp_policy.h] are not in this repository; the
    specification describes a table as pre-validated and as "more allowed
    syscalls", that is, on every input it either allows or passes. *)
Definition allow_or_pass (frag : list sock_filter) : Prop :=
  forall d, baseline_allows frag d \/ baseline_passes frag d.

(** The table never jumps beyond the instruction that follows it. *)
Definition stays_inside (frag : list sock_filter) (d : seccomp_data) : Prop :=
  forall n A, fragment_result frag d <> Exit (S n) A.

(** The dispatcher as the specification describes it: the compare against
    the 32-bit constant is followed by a jump instruction, and the index
    handed to the patcher is the index of that following instruction. *)
Definition dispatcher_as_described (f' : filter) (off : Z) : Prop :=
  exists (c : nat) (j : sock_filter),
    f' !! c = Some (JEQ AUDIT_ARCH_ARM 1 0) /\
    f' !! S c = Some j /\
    Z.land (code j) 0x07 = BPF_JMP /\
    off = Z.of_nat (S c).

(** A syscall number is allowed under an architecture when it is in that
    architecture's explicit list or its generated table allows it. *)
Definition allowed_under (arm64_filter arm_filter : list sock_filter)
    (a : architecture) (d : seccomp_data) : Prop :=
  In (nr d) (allow_list a) \/ baseline_allows (baseline arm64_filter arm_filter a) d.

(** The largest 64-bit table for which the patched jump still fits: the
    distance is the size of the table plus 31. *)
Definition arm64_filter_max : nat := 224.

(** The program of a policy whose patch succeeded. *)
Definition policy_program (arm64_filter arm_filter : list sock_filter) : filter :=
  dispatcher (Z.of_nat (length arm64_filter) + 31)
  ++ section_of arm64_filter arm64_allow_list
  ++ section_of arm_filter arm_allow_list.

(** ** Sample tables and inputs

    Two small tables in the style of the generated ones (a search over
    ranges that ends in one allow), used to instantiate the theorems. *)

Definition JGE (kv t e : Z) : sock_filter :=
  {| code := 0x35; jt := t; jf := e; k := kv |}.

(** Allows 17..19 and 56..63, passes on everything else. *)
Definition sample_arm64_filter : list sock_filter :=
  [JGE 56 2 0; JGE 17 0 3; JGE 20 2 1; JGE 64 1 0; RET SECCOMP_RET_ALLOW].

(** Allows 4, passes on everything else. *)
Definition sample_arm_filter : list sock_filter :=
  [JEQ 4 0 1; RET SECCOMP_RET_ALLOW].

Definition syscall (a : architecture) (n : Z) : seccomp_data :=
  {| nr := n; arch := arch_constant a; instruction_pointer := 0; args := [0; 0; 0; 0; 0; 0] |}.

(** A vector of 258 instructions: patched at index 2 the distance is 255. *)
Definition sample_vector : list sock_filter := repeat (RET SECCOMP_RET_KILL) 258.

Definition kernel_accepts (prog : sock_fprog) : Z := 0.
Definition kernel_refuses (prog : sock_fprog) : Z := -1.

(** [SECCOMP_RET_ACTION] and [SECCOMP_RET_DATA] of [linux/seccomp.h]: the
    bits of a filter's return value that name the action and the bits that
    carry its data. *)
Definition SECCOMP_RET_ACTION : Z := 0x7fff0000.
Definition SECCOMP_RET_DATA : Z := 0x0000ffff.

(** The index of the first instruction of the 32-bit section in the
    program of a policy: the prologue (4), the examine instruction, the
    64-bit table, its 14 pairs and its terminator come before it. *)
Definition section32_start (arm64_filter : list sock_filter) : nat :=
  (length arm64_filter + 34)%nat.

(** The index of the first instruction of the 64-bit section. *)
Definition section64_start : nat := 4%nat.

(** * Properties *)

(** ** The instruction constructors *)

Lemma u32_small n : is_u32 n -> u32 n = n.
Proof. intros H. unfold u32. apply Z.mod_small. exact H. Qed.

Lemma u8_small n : 0 <= n < 256 -> u8 n = n.
Proof. intros H. unfold u8. apply Z.mod_small. lia. Qed.

Lemma size_t_small n : 0 <= n < 2 ^ 64 -> size_t n = n.
Proof. intros H. unfold size_t, SIZE_BITS. apply Z.mod_small. exact H. Qed.

Lemma BPF_JUMP_JEQ n t e :
  is_u32 n -> 0 <= t < 256 -> 0 <= e < 256 ->
  BPF_JUMP (Z.lor (Z.lor BPF_JMP BPF_JEQ) BPF_K) n t e = JEQ n t e.
Proof.
  intros Hn Ht He. unfold BPF_JUMP, JEQ.
  rewrite (u32_small n Hn), (u8_small t Ht), (u8_small e He). reflexivity.
Qed.

Lemma Trap_app f : Trap f = f ++ [RET SECCOMP_RET_TRAP].
Proof. reflexivity. Qed.

Lemma Allow_app f : Allow f = f ++ [RET SECCOMP_RET_ALLOW].
Proof. reflexivity. Qed.

Lemma ExamineSyscall_app f : ExamineSyscall f = f ++ [LOAD syscall_nr].
Proof. reflexivity. Qed.

Lemma AllowSyscall_app f n :
  is_u32 n -> AllowSyscall f n = f ++ [JEQ n 0 1; RET SECCOMP_RET_ALLOW].
Proof.
  intros Hn. unfold AllowSyscall, push_back.
  rewrite BPF_JUMP_JEQ by (auto; lia).
  rewrite Allow_app, <- app_assoc. reflexivity.
Qed.

Lemma fold_push_back (l : list sock_filter) (f : filter) :
  fold_left push_back l f = f ++ l.
Proof.
  revert f. induction l as [|i l IH]; intros f; simpl.
  - now rewrite app_nil_r.
  - rewrite IH. unfold push_back. now rewrite <- app_assoc.
Qed.

Lemma fold_AllowSyscall (l : list Z) (f : filter) :
  Forall is_u32 l -> fold_left AllowSyscall l f = f ++ allow_pairs l.
Proof.
  intros Hl. revert f. induction Hl as [|n l Hn Hl IH]; intros f; simpl.
  - now rewrite app_nil_r.
  - rewrite IH, AllowSyscall_app by exact Hn. now rewrite <- app_assoc.
Qed.

Lemma allow_pairs_length l : length (allow_pairs l) = (2 * length l)%nat.
Proof. induction l as [|n l IH]; simpl; [reflexivity | rewrite IH; lia]. Qed.

Lemma arm64_allow_list_u32 : Forall is_u32 arm64_allow_list.
Proof. unfold arm64_allow_list, is_u32. repeat constructor; lia. Qed.

Lemma arm_allow_list_u32 : Forall is_u32 arm_allow_list.
Proof. unfold arm_allow_list, is_u32. repeat constructor; lia. Qed.

Lemma arm64_allow_list_once_u32 : Forall is_u32 arm64_allow_list_once.
Proof. unfold is_u32. repeat constructor; lia. Qed.

(** ** The prologue and the patcher *)

Lemma ValidateArchitectureAndJumpIfNeeded_eq (f : filter) :
  Z.of_nat (length f) + 4 < 2 ^ 64 ->
  ValidateArchitectureAndJumpIfNeeded f
  = (Z.of_nat (length f) + 2, f ++ dispatcher 1).
Proof.
  intros Hlen. unfold ValidateArchitectureAndJumpIfNeeded.
  rewrite Trap_app. unfold push_back. rewrite <- !app_assoc. simpl app.
  f_equal.
  unfold vsize. rewrite length_app. simpl length.
  rewrite (size_t_small (Z.of_nat (length f + 4))) by lia.
  rewrite size_t_small; lia.
Qed.

Lemma SetValidateArchitectureJumpTarget_eq (i : nat) (f : filter) (w : World) :
  (i < length f)%nat -> Z.of_nat (length f) < 2 ^ 64 ->
  SetValidateArchitectureJumpTarget (Z.of_nat i) f w
  = if 255 <? Z.of_nat (length f) - Z.of_nat i - 1
    then (-1, f,
          ALOGE "Can't set jump greater than 255 - actual jump is %zu"
                [Z.of_nat (length f) - Z.of_nat i - 1] w)
    else (0, <[i := JEQ AUDIT_ARCH_ARM (Z.of_nat (length f) - Z.of_nat i - 1) 0]> f, w).
Proof.
  intros Hi Hlen. unfold SetValidateArchitectureJumpTarget, vsize.
  set (dist := Z.of_nat (length f) - Z.of_nat i - 1).
  rewrite (size_t_small (Z.of_nat (length f))) by lia.
  fold dist. rewrite (size_t_small dist) by (unfold dist; lia).
  destruct (Z.ltb_spec 255 dist) as [Hbig|Hsmall].
  - assert (Hne : u8 dist <> dist).
    { unfold u8. pose proof (Z.mod_pos_bound dist (2 ^ 8) ltac:(lia)). lia. }
    apply Z.eqb_neq in Hne. rewrite Hne. reflexivity.
  - assert (Heq : u8 dist = dist) by (apply u8_small; unfold dist; lia).
    rewrite Heq, Z.eqb_refl. simpl negb. cbv iota.
    rewrite Nat2Z.id, BPF_JUMP_JEQ; [reflexivity | | unfold dist; lia | lia].
    unfold is_u32, AUDIT_ARCH_ARM. lia.
Qed.

(** ** The evaluator *)

Lemma run_pc d l : forall skip pc pc' A,
  snd (run d l skip pc A) = snd (run d l skip pc' A).
Proof.
  induction l as [|i l IH]; intros skip pc pc' A; simpl; [reflexivity|].
  destruct skip as [|n]; [|apply IH].
  destruct (step d i A) as [v|A' n|]; try reflexivity.
  specialize (IH n (S pc) (S pc') A').
  destruct (run d l n (S pc) A'), (run d l n (S pc') A'). exact IH.
Qed.

Lemma result_nil d skip A : result d [] skip A = Exit skip A.
Proof. reflexivity. Qed.

Lemma result_skip d i l n A : result d (i :: l) (S n) A = result d l n A.
Proof. unfold result. simpl. apply run_pc. Qed.

Lemma result_exec d i l A :
  result d (i :: l) 0 A
  = match step d i A with
    | Halt v => Ret v
    | Next A' n => result d l n A'
    | Bad => Fault
    end.
Proof.
  unfold result. simpl. destruct (step d i A) as [v|A' n|]; try reflexivity.
  rewrite (run_pc d l n 0 1 A'). destruct (run d l n 1 A'). reflexivity.
Qed.

(** Evaluation of a concatenation: the first part runs, and what it leaves
    is where the second part starts. *)
Lemma result_app d a : forall b skip A,
  result d (a ++ b) skip A
  = match result d a skip A with
    | Exit n A' => result d b n A'
    | o => o
    end.
Proof.
  induction a as [|i a IH]; intros b skip A.
  - reflexivity.
  - rewrite <- app_comm_cons. destruct skip as [|n].
    + rewrite !result_exec. destruct (step d i A) as [v|A' n|]; try reflexivity.
      apply IH.
    + rewrite !result_skip. apply IH.
Qed.

Lemma result_skip_over d a : forall n A,
  result d a (length a + n) A = Exit n A.
Proof.
  induction a as [|i a IH]; intros n A; simpl length.
  - reflexivity.
  - simpl Nat.add. rewrite result_skip. apply IH.
Qed.

Lemma step_LOAD_nr d A : step d (LOAD syscall_nr) A = Next (nr d) 0.
Proof. reflexivity. Qed.

Lemma step_LOAD_arch d A : step d (LOAD arch_nr) A = Next (arch d) 0.
Proof. reflexivity. Qed.

Lemma step_JEQ d kv t e A :
  step d (JEQ kv t e) A = Next A (Z.to_nat (if A =? kv then t else e)).
Proof. reflexivity. Qed.

Lemma step_RET d v A : step d (RET v) A = Halt v.
Proof. reflexivity. Qed.

(** The compare-and-allow pairs: a listed number is allowed, any other
    number reaches the instruction after the last pair. *)
Lemma result_allow_pairs_in d l : forall rest A,
  In A l -> result d (allow_pairs l ++ rest) 0 A = Ret SECCOMP_RET_ALLOW.
Proof.
  induction l as [|n l IH]; intros rest A Hin; [destruct Hin|].
  simpl. rewrite result_exec, step_JEQ.
  destruct (Z.eqb_spec A n) as [Heq|Hne].
  - change (Z.to_nat 0) with 0%nat. change (Z.to_nat 0) with 0%nat.
    rewrite result_exec, step_RET. reflexivity.
  - change (Z.to_nat 1) with 1%nat. rewrite result_skip. apply IH. destruct Hin as [Heq|Hin]; [congruence|exact Hin].
Qed.

Lemma result_allow_pairs_notin d l : forall A,
  ~ In A l -> result d (allow_pairs l) 0 A = Exit 0 A.
Proof.
  induction l as [|n l IH]; intros A Hnin; [reflexivity|].
  simpl. rewrite result_exec, step_JEQ.
  destruct (Z.eqb_spec A n) as [->|Hne].
  - exfalso. apply Hnin. now left.
  - change (Z.to_nat 1) with 1%nat. rewrite result_skip. apply IH. intros Hin. apply Hnin. now right.
Qed.

(** ** The layout of the assembled program *)

Lemma section_append (f : filter) (frag : list sock_filter) (al : list Z) :
  Forall is_u32 al ->
  Trap (fold_left AllowSyscall al (fold_left push_back frag (ExamineSyscall f)))
  = f ++ section_of frag al.
Proof.
  intros Hal. rewrite Trap_app, fold_AllowSyscall, fold_push_back, ExamineSyscall_app by exact Hal.
  unfold section_of. rewrite <- !app_assoc. simpl. now rewrite <- app_assoc.
Qed.

Lemma section_of_length frag al :
  length (section_of frag al) = (length frag + 2 * length al + 2)%nat.
Proof.
  unfold section_of. rewrite length_app. simpl length.
  rewrite length_app, allow_pairs_length. lia.
Qed.

Lemma patch_dispatcher (s : filter) (w : World) :
  Z.of_nat (length s) + 4 < 2 ^ 64 ->
  SetValidateArchitectureJumpTarget 2 (dispatcher 1 ++ s) w
  = if 255 <? Z.of_nat (length s) + 1
    then (-1, dispatcher 1 ++ s,
          ALOGE "Can't set jump greater than 255 - actual jump is %zu"
                [Z.of_nat (length s) + 1] w)
    else (0, dispatcher (Z.of_nat (length s) + 1) ++ s, w).
Proof.
  intros Hlen.
  assert (Hsz : Z.of_nat (length (dispatcher 1 ++ s)) = Z.of_nat (length s) + 4).
  { rewrite length_app. simpl length. lia. }
  change 2 with (Z.of_nat 2) at 1.
  rewrite SetValidateArchitectureJumpTarget_eq by (rewrite ?length_app; simpl length; lia).
  rewrite Hsz.
  replace (Z.of_nat (length s) + 4 - Z.of_nat 2 - 1) with (Z.of_nat (length s) + 1) by lia.
  reflexivity.
Qed.

(** The program of a policy whose 64-bit table has [n64] instructions and
    whose 64-bit allow-list is [al]. *)
Lemma assemble_with_layout (arm64_filter arm_filter : list sock_filter) (al : list Z) :
  Forall is_u32 al ->
  Z.of_nat (length arm64_filter) + 2 * Z.of_nat (length al) + 6 < 2 ^ 64 ->
  assemble_with arm64_filter arm_filter al
  = if 255 <? Z.of_nat (length arm64_filter) + 2 * Z.of_nat (length al) + 3
    then None
    else Some (dispatcher (Z.of_nat (length arm64_filter) + 2 * Z.of_nat (length al) + 3)
               ++ section_of arm64_filter al
               ++ section_of arm_filter arm_allow_list).
Proof.
  intros Hal Hlen. unfold assemble_with.
  rewrite ValidateArchitectureAndJumpIfNeeded_eq by (simpl; lia).
  simpl length. simpl Z.add. simpl app.
  rewrite (section_append (dispatcher 1)) by exact Hal.
  set (s := section_of arm64_filter al).
  assert (Hs : Z.of_nat (length s) + 1
               = Z.of_nat (length arm64_filter) + 2 * Z.of_nat (length al) + 3).
  { unfold s. rewrite section_of_length. lia. }
  rewrite patch_dispatcher by lia. rewrite Hs.
  destruct (255 <? _); [reflexivity|].
  simpl negb. cbv iota.
  rewrite section_append by exact arm_allow_list_u32.
  rewrite <- app_assoc. reflexivity.
Qed.

Lemma SetValidateArchitectureJumpTarget_world (off : Z) (f : filter) (w : World) :
  prctl_calls (snd (SetValidateArchitectureJumpTarget off f w)) = prctl_calls w.
Proof.
  unfold SetValidateArchitectureJumpTarget.
  destruct (negb _); reflexivity.
Qed.

Lemma install_filter_calls prctl (f : filter) (w : World) :
  prctl_calls (snd (install_filter prctl f w))
  = prctl_calls w ++ [{| len := u16 (vsize f); filter_ptr := f |}].
Proof.
  unfold install_filter. destruct (_ <? 0); reflexivity.
Qed.

(** [set_seccomp_filter] with its two runs of [AllowSyscall] calls folded
    over the tables of numbers. *)
Lemma set_seccomp_filter_fold (arm64_filter arm_filter : list sock_filter) prctl (w : World) :
  set_seccomp_filter arm64_filter arm_filter prctl w
  = let '(off, f) := ValidateArchitectureAndJumpIfNeeded [] in
    let f := Trap (fold_left AllowSyscall arm64_allow_list
                     (fold_left push_back arm64_filter (ExamineSyscall f))) in
    let '(rc, f, w) := SetValidateArchitectureJumpTarget off f w in
    if negb (rc =? 0) then (true, w)
    else install_filter prctl
           (Trap (fold_left AllowSyscall arm_allow_list
                    (fold_left push_back arm_filter (ExamineSyscall f)))) w.
Proof. reflexivity. Qed.

(** The program handed to the kernel is the one the build sequence
    assembles from the source's 64-bit list. *)
Lemma installed_program_assemble (arm64_filter arm_filter : list sock_filter) prctl :
  installed_program arm64_filter arm_filter prctl
  = assemble_with arm64_filter arm_filter arm64_allow_list.
Proof.
  unfold installed_program, assemble_with. rewrite set_seccomp_filter_fold.
  destruct (ValidateArchitectureAndJumpIfNeeded []) as [off f].
  cbv zeta.
  set (g := Trap (fold_left AllowSyscall arm64_allow_list
                    (fold_left push_back arm64_filter (ExamineSyscall f)))).
  pose proof (SetValidateArchitectureJumpTarget_world off g empty_world) as Hw.
  destruct (SetValidateArchitectureJumpTarget off g empty_world) as [[rc g'] w'].
  simpl in Hw. destruct (negb (rc =? 0)).
  - simpl. rewrite Hw. reflexivity.
  - rewrite install_filter_calls, Hw. reflexivity.
Qed.

(** ** Evaluation of the assembled program *)

(** An architecture word that is neither constant: the four instructions
    of the prologue are executed and the last one traps. *)
Lemma run_dispatcher_unknown d t rest :
  arch d <> AUDIT_ARCH_AARCH64 -> arch d <> AUDIT_ARCH_ARM ->
  run d (dispatcher t ++ rest) 0 0 0 = ([0; 1; 2; 3]%nat, Ret SECCOMP_RET_TRAP).
Proof.
  intros H64 H32. unfold dispatcher. cbn [app run].
  rewrite step_LOAD_arch. cbn [run].
  rewrite step_JEQ. apply Z.eqb_neq in H64. rewrite H64.
  change (Z.to_nat 0) with 0%nat. cbn [run].
  rewrite step_JEQ. apply Z.eqb_neq in H32. rewrite H32.
  change (Z.to_nat 0) with 0%nat. cbn [run].
  rewrite step_RET. reflexivity.
Qed.

(** The 64-bit constant: the true-skip 2 of the first compare lands on the
    instruction after the prologue. *)
Lemma eval_dispatcher_arm64 d t rest :
  arch d = AUDIT_ARCH_AARCH64 ->
  eval (dispatcher t ++ rest) d = result d rest 0 (arch d).
Proof.
  intros H64. unfold eval, dispatcher. cbn [app].
  rewrite result_exec, step_LOAD_arch, result_exec, step_JEQ.
  rewrite H64 at 1. rewrite Z.eqb_refl. change (Z.to_nat 2) with 2%nat.
  rewrite !result_skip. reflexivity.
Qed.

(** The 32-bit constant: the patched compare skips the trap and the whole
    64-bit section. *)
Lemma eval_dispatcher_arm32 d (s64 s32 : filter) :
  arch d = AUDIT_ARCH_ARM ->
  eval (dispatcher (Z.of_nat (length s64) + 1) ++ s64 ++ s32) d = result d s32 0 (arch d).
Proof.
  intros H32. unfold eval, dispatcher. cbn [app].
  rewrite result_exec, step_LOAD_arch, result_exec, step_JEQ.
  assert (Hne : (arch d =? AUDIT_ARCH_AARCH64) = false).
  { rewrite H32. reflexivity. }
  rewrite Hne. change (Z.to_nat 0) with 0%nat.
  rewrite result_exec, step_JEQ. rewrite H32 at 1. rewrite Z.eqb_refl.
  replace (Z.to_nat (Z.of_nat (length s64) + 1)) with (S (length s64 + 0)) by lia.
  rewrite result_skip, result_app, result_skip_over. reflexivity.
Qed.

(** A section whose table passes: the compare-and-allow pairs decide. *)
Lemma result_section_listed d frag al rest A :
  baseline_passes frag d -> In (nr d) al ->
  result d (section_of frag al ++ rest) 0 A = Ret SECCOMP_RET_ALLOW.
Proof.
  intros Hpass Hin. unfold section_of. cbn [app].
  rewrite result_exec, step_LOAD_nr.
  rewrite <- !app_assoc, result_app. unfold baseline_passes, fragment_result in Hpass.
  rewrite Hpass. apply result_allow_pairs_in, Hin.
Qed.

Lemma result_section_unlisted d frag al rest A :
  baseline_passes frag d -> ~ In (nr d) al ->
  result d (section_of frag al ++ rest) 0 A = Ret SECCOMP_RET_TRAP.
Proof.
  intros Hpass Hnin. unfold section_of. cbn [app].
  rewrite result_exec, step_LOAD_nr.
  rewrite <- !app_assoc, result_app. unfold baseline_passes, fragment_result in Hpass.
  rewrite Hpass, result_app, result_allow_pairs_notin by exact Hnin.
  cbn [app]. rewrite result_exec, step_RET. reflexivity.
Qed.

(** A section whose table returns: that is the result. *)
Lemma result_section_decided d frag al rest A v :
  fragment_result frag d = Ret v ->
  result d (section_of frag al ++ rest) 0 A = Ret v.
Proof.
  intros Hret. unfold section_of. cbn [app].
  rewrite result_exec, step_LOAD_nr.
  rewrite <- !app_assoc, result_app. unfold fragment_result in Hret.
  rewrite Hret. reflexivity.
Qed.

Lemma installed_program_ok (arm64_filter arm_filter : list sock_filter) prctl :
  (length arm64_filter <= arm64_filter_max)%nat ->
  installed_program arm64_filter arm_filter prctl
  = Some (policy_program arm64_filter arm_filter).
Proof.
  unfold arm64_filter_max. intros Hn.
  rewrite installed_program_assemble, assemble_with_layout
    by (try exact arm64_allow_list_u32; simpl length; lia).
  simpl length.
  replace (Z.of_nat (length arm64_filter) + 2 * Z.of_nat 14 + 3)
    with (Z.of_nat (length arm64_filter) + 31) by lia.
  destruct (Z.ltb_spec 255 (Z.of_nat (length arm64_filter) + 31)); [lia | reflexivity].
Qed.

Lemma installed_program_none (arm64_filter arm_filter : list sock_filter) prctl :
  (arm64_filter_max < length arm64_filter)%nat ->
  Z.of_nat (length arm64_filter) + 34 < 2 ^ 64 ->
  installed_program arm64_filter arm_filter prctl = None.
Proof.
  unfold arm64_filter_max. intros Hn Hsz.
  rewrite installed_program_assemble, assemble_with_layout
    by (try exact arm64_allow_list_u32; simpl length; lia).
  simpl length.
  destruct (Z.ltb_spec 255 (Z.of_nat (length arm64_filter) + 2 * Z.of_nat 14 + 3));
    [reflexivity | lia].
Qed.

Lemma assemble_once_ok (arm64_filter arm_filter : list sock_filter) :
  (length arm64_filter <= arm64_filter_max)%nat ->
  assemble_with arm64_filter arm_filter arm64_allow_list_once
  = Some (dispatcher (Z.of_nat (length (section_of arm64_filter arm64_allow_list_once)) + 1)
          ++ section_of arm64_filter arm64_allow_list_once
          ++ section_of arm_filter arm_allow_list).
Proof.
  unfold arm64_filter_max. intros Hn.
  rewrite assemble_with_layout
    by (try exact arm64_allow_list_once_u32; simpl length; lia).
  rewrite section_of_length. simpl length.
  destruct (Z.ltb_spec 255 (Z.of_nat (length arm64_filter) + 2 * Z.of_nat 13 + 3)); [lia|].
  do 2 f_equal. f_equal. lia.
Qed.

(** Dispatch: an input of architecture [a] is decided by [a]'s section
    (followed by whatever is behind it), entered with a fresh load. *)
Lemma eval_policy_section (arm64_filter arm_filter : list sock_filter) (a : architecture) d :
  arch d = arch_constant a ->
  exists rest,
    eval (policy_program arm64_filter arm_filter) d
    = result d (section_of (baseline arm64_filter arm_filter a) (allow_list a) ++ rest) 0 (arch d).
Proof.
  intros Harch. unfold policy_program.
  destruct a; cbn [arch_constant baseline allow_list] in Harch |- *.
  - exists (section_of arm_filter arm_allow_list).
    apply eval_dispatcher_arm64. exact Harch.
  - exists []. rewrite app_nil_r.
    replace (Z.of_nat (length arm64_filter) + 31)
      with (Z.of_nat (length (section_of arm64_filter arm64_allow_list)) + 1)
      by (rewrite section_of_length; simpl length; lia).
    apply eval_dispatcher_arm32. exact Harch.
Qed.

(** ** The sample tables *)

Lemma step_JGE d kv t e A :
  step d (JGE kv t e) A = Next A (Z.to_nat (if kv <=? A then t else e)).
Proof. reflexivity. Qed.

Lemma sample_arm64_filter_allow_or_pass : allow_or_pass sample_arm64_filter.
Proof.
  intros d. unfold baseline_allows, baseline_passes, fragment_result, sample_arm64_filter.
  rewrite result_exec, step_JGE. destruct (Z.leb_spec 56 (nr d)) as [H56|H56].
  - change (Z.to_nat 2) with 2%nat. rewrite !result_skip, result_exec, step_JGE.
    destruct (Z.leb_spec 64 (nr d)) as [H64|H64].
    + right. reflexivity.
    + left. change (Z.to_nat 0) with 0%nat. now rewrite result_exec, step_RET.
  - change (Z.to_nat 0) with 0%nat. rewrite result_exec, step_JGE.
    destruct (Z.leb_spec 17 (nr d)) as [H17|H17].
    + change (Z.to_nat 0) with 0%nat. rewrite result_exec, step_JGE.
      destruct (Z.leb_spec 20 (nr d)) as [H20|H20].
      * right. reflexivity.
      * left. change (Z.to_nat 1) with 1%nat.
        now rewrite result_skip, result_exec, step_RET.
    + right. reflexivity.
Qed.

Lemma sample_arm_filter_allow_or_pass : allow_or_pass sample_arm_filter.
Proof.
  intros d. unfold baseline_allows, baseline_passes, fragment_result, sample_arm_filter.
  rewrite result_exec, step_JEQ. destruct (Z.eqb_spec (nr d) 4) as [H4|H4].
  - left. change (Z.to_nat 0) with 0%nat. now rewrite result_exec, step_RET.
  - right. reflexivity.
Qed.

(** * The allow-list compiler *)

(** C8: [AllowSyscall f n] appends to [f] exactly two instructions, a
    compare-equal against [n] with true-skip 0 and false-skip 1 directly
    followed by an Allow return; on a match evaluation returns Allow, and
    otherwise it continues at the first instruction appended after the
    pair. *)
Theorem AllowSyscall_appends_pair (f : filter) (n : Z) :
  is_u32 n ->
  AllowSyscall f n
  = f ++ [ {| code := 0x15; jt := 0; jf := 1; k := n |};
           {| code := 0x06; jt := 0; jf := 0; k := SECCOMP_RET_ALLOW |} ]
  /\ length (AllowSyscall f n) = (length f + 2)%nat
  /\ (forall d rest,
        result d (AllowSyscall [] n ++ rest) 0 n = Ret SECCOMP_RET_ALLOW)
  /\ (forall d rest A, A <> n ->
        result d (AllowSyscall [] n ++ rest) 0 A = result d rest 0 A).
Proof.
  intros Hn. rewrite !AllowSyscall_app by exact Hn.
  split; [reflexivity|]. split; [rewrite length_app; reflexivity|].
  split.
  - intros d rest. apply (result_allow_pairs_in d [n] rest n). now left.
  - intros d rest A Hne. cbn [app].
    rewrite result_exec, step_JEQ.
    apply Z.eqb_neq in Hne. rewrite Hne. change (Z.to_nat 1) with 1%nat.
    now rewrite result_skip.
Qed.

Lemma AllowSyscall_appends_pair_witness :
  is_u32 98 /\
  AllowSyscall [] 98
  = [ {| code := 0x15; jt := 0; jf := 1; k := 98 |};
      {| code := 0x06; jt := 0; jf := 0; k := SECCOMP_RET_ALLOW |} ].
Proof.
  assert (H : is_u32 98) by (unfold is_u32; lia).
  split; [exact H|].
  exact (proj1 (AllowSyscall_appends_pair [] 98 H)).
Defined.

(** * The installer *)

(** C10: [install_filter] hands the kernel a [sock_fprog] whose length
    field is the instruction count reduced modulo 2^16, next to the
    program itself; the field equals the instruction count exactly when
    the program has at most 65535 instructions. *)
Theorem install_filter_length_field (prctl : sock_fprog -> Z) (f : filter) (w : World) :
  prctl_calls (snd (install_filter prctl f w))
  = prctl_calls w ++ [ {| len := Z.of_nat (length f) mod 2 ^ 16; filter_ptr := f |} ]
  /\ (Z.of_nat (length f) mod 2 ^ 16 = Z.of_nat (length f) <-> Z.of_nat (length f) <= 65535).
Proof.
  split.
  - rewrite install_filter_calls. do 3 f_equal.
    unfold u16, vsize, size_t, SIZE_BITS.
    apply Z.mod_mod_divide. exists (2 ^ 48). reflexivity.
  - split.
    + intros H. pose proof (Z.mod_pos_bound (Z.of_nat (length f)) (2 ^ 16) ltac:(lia)). lia.
    + intros H. apply Z.mod_small. lia.
Qed.

(** * The offset patcher *)

Lemma drop_insert_app (f g : filter) (x : sock_filter) : forall i : nat,
  (i < length f)%nat -> drop i (<[i := x]> f ++ g) = x :: drop (S i) f ++ g.
Proof.
  induction f as [|y f IH]; intros [|i] Hi; simpl in Hi; try lia.
  - reflexivity.
  - simpl. apply IH. lia.
Qed.

Lemma lookup_past (f g : filter) (n : nat) :
  n = length f -> (f ++ g) !! n = g !! 0%nat.
Proof.
  intros ->. rewrite lookup_app_r by lia. now rewrite Nat.sub_diag.
Qed.

(** C2: for a placeholder index [i] inside [f], the patcher computes
    [distance = length f - i - 1]; it fails (returns -1, leaves [f] as it
    is) exactly when the distance exceeds 255, and it never calls the
    kernel; when it succeeds it overwrites the instruction at [i] with a
    compare-equal against the 32-bit constant whose true-skip is the
    distance, so that the true branch lands on the first instruction
    appended afterwards. *)
Theorem SetValidateArchitectureJumpTarget_spec (f : filter) (i : nat) (w : World) :
  (i < length f)%nat ->
  Z.of_nat (length f) < 2 ^ 64 ->
  let distance := Z.of_nat (length f) - Z.of_nat i - 1 in
  let r := SetValidateArchitectureJumpTarget (Z.of_nat i) f w in
  let rc := fst (fst r) in
  let f' := snd (fst r) in
  (rc <> 0 <-> 255 < distance)
  /\ prctl_calls (snd r) = prctl_calls w
  /\ (255 < distance -> rc = -1 /\ f' = f)
  /\ (distance <= 255 ->
      rc = 0
      /\ f' = <[i := {| code := 0x15; jt := distance; jf := 0; k := AUDIT_ARCH_ARM |}]> f
      /\ (forall g : filter, (f' ++ g) !! (i + 1 + Z.to_nat distance)%nat = g !! 0%nat)
      /\ (forall d (g : filter),
            result d (drop i (f' ++ g)) 0 AUDIT_ARCH_ARM = result d g 0 AUDIT_ARCH_ARM)).
Proof.
  intros Hi Hlen distance r rc f'.
  split; [|split; [apply SetValidateArchitectureJumpTarget_world|]].
  - subst rc r. rewrite SetValidateArchitectureJumpTarget_eq by assumption.
    fold distance. destruct (Z.ltb_spec 255 distance); simpl; lia.
  - subst rc f' r. rewrite SetValidateArchitectureJumpTarget_eq by assumption.
    fold distance. destruct (Z.ltb_spec 255 distance) as [Hbig|Hsmall]; cbn [fst snd].
    + split; [auto|]. intros Hle. lia.
    + split; [intros Hgt; lia|]. intros _.
      split; [reflexivity|]. split; [reflexivity|]. split.
      * intros g. apply lookup_past. rewrite length_insert. unfold distance. lia.
      * intros d g. rewrite drop_insert_app by exact Hi.
        rewrite result_exec. fold (JEQ AUDIT_ARCH_ARM distance 0).
        rewrite step_JEQ, Z.eqb_refl.
        replace (Z.to_nat distance) with (length (drop (S i) f) + 0)%nat
          by (rewrite length_drop; unfold distance; lia).
        now rewrite result_app, result_skip_over.
Qed.

(** At a distance of exactly 255 (a program of 258 instructions patched
    at index 2) the patch succeeds. *)
Lemma SetValidateArchitectureJumpTarget_spec_witness :
  (2 < length sample_vector)%nat /\ Z.of_nat (length sample_vector) < 2 ^ 64 /\
  fst (fst (SetValidateArchitectureJumpTarget 2 sample_vector empty_world)) = 0.
Proof.
  assert (H1 : (2 < length sample_vector)%nat) by (vm_compute; lia).
  assert (H2 : Z.of_nat (length sample_vector) < 2 ^ 64) by (vm_compute; reflexivity).
  split; [exact H1|]. split; [exact H2|].
  pose proof (SetValidateArchitectureJumpTarget_spec sample_vector 2 empty_world H1 H2) as H.
  cbv zeta in H. destruct H as (_ & _ & _ & H).
  apply H. vm_compute. discriminate.
Defined.

(** At a distance of 256 it fails. *)
Example SetValidateArchitectureJumpTarget_256 :
  SetValidateArchitectureJumpTarget 2 (repeat (RET SECCOMP_RET_KILL) 259) empty_world
  = (-1, repeat (RET SECCOMP_RET_KILL) 259,
     ALOGE "Can't set jump greater than 255 - actual jump is %zu" [256] empty_world).
Proof. vm_compute. reflexivity. Qed.

(** * The architecture dispatcher *)

(** C3, as the code has it: the dispatcher appends exactly four
    instructions, a load of the architecture word, a compare against the
    64-bit constant whose true-skip 2 reaches the first instruction
    appended after the prologue, a compare against the 32-bit constant
    with true-skip 1 and false-skip 0, and a Trap.  The index it returns
    is the index of the compare against the 32-bit constant itself, and
    that compare is the instruction the patcher overwrites. *)
Theorem ValidateArchitectureAndJumpIfNeeded_spec (f : filter) :
  Z.of_nat (length f) + 4 < 2 ^ 64 ->
  let r := ValidateArchitectureAndJumpIfNeeded f in
  let off := fst r in
  let f' := snd r in
  f' = f ++ [LOAD arch_nr; JEQ AUDIT_ARCH_AARCH64 2 0; JEQ AUDIT_ARCH_ARM 1 0;
             RET SECCOMP_RET_TRAP]
  /\ off = Z.of_nat (length f) + 2
  /\ f' !! Z.to_nat off = Some (JEQ AUDIT_ARCH_ARM 1 0)
  /\ (forall g : filter, (f' ++ g) !! (length f + 1 + 1 + 2)%nat = g !! 0%nat)
  /\ (forall (g : filter) (w : World),
        Z.of_nat (length f) + Z.of_nat (length g) + 4 < 2 ^ 64 ->
        Z.of_nat (length g) + 1 <= 255 ->
        SetValidateArchitectureJumpTarget off (f' ++ g) w
        = (0, f ++ [LOAD arch_nr; JEQ AUDIT_ARCH_AARCH64 2 0;
                    JEQ AUDIT_ARCH_ARM (Z.of_nat (length g) + 1) 0;
                    RET SECCOMP_RET_TRAP] ++ g, w)).
Proof.
  intros Hlen r off f'. subst off f' r.
  rewrite ValidateArchitectureAndJumpIfNeeded_eq by exact Hlen.
  cbn [fst snd]. fold (dispatcher 1).
  split; [reflexivity|]. split; [reflexivity|]. split; [|split].
  - replace (Z.to_nat (Z.of_nat (length f) + 2)) with (length f + 2)%nat by lia.
    rewrite lookup_app_r by lia.
    replace (length f + 2 - length f)%nat with 2%nat by lia. reflexivity.
  - intros g. apply lookup_past. rewrite length_app. simpl length. lia.
  - intros g w Hsz Hg.
    replace (Z.of_nat (length f) + 2) with (Z.of_nat (length f + 2)) by lia.
    rewrite SetValidateArchitectureJumpTarget_eq
      by (rewrite ?length_app; simpl length; lia).
    rewrite !length_app. simpl length.
    replace (Z.of_nat (length f + 4 + length g) - Z.of_nat (length f + 2) - 1)
      with (Z.of_nat (length g) + 1) by lia.
    destruct (Z.ltb_spec 255 (Z.of_nat (length g) + 1)); [lia|].
    do 2 f_equal. rewrite <- app_assoc.
    rewrite insert_app_r_alt by lia.
    replace (length f + 2 - length f)%nat with 2%nat by lia. reflexivity.
Qed.

Lemma ValidateArchitectureAndJumpIfNeeded_spec_witness :
  Z.of_nat (length (@nil sock_filter)) + 4 < 2 ^ 64 /\
  ValidateArchitectureAndJumpIfNeeded [] = (2, dispatcher 1).
Proof.
  assert (H : Z.of_nat (length (@nil sock_filter)) + 4 < 2 ^ 64) by (vm_compute; reflexivity).
  split; [exact H|].
  pose proof (ValidateArchitectureAndJumpIfNeeded_spec [] H) as (Hf & Hoff & _).
  rewrite (surjective_pairing (ValidateArchitectureAndJumpIfNeeded [])).
  rewrite Hf, Hoff. reflexivity.
Defined.

(** C3, as the specification words it, fails: in the program the
    dispatcher builds from the empty vector the instruction after the
    compare against the 32-bit constant is the Trap, not a jump, and the
    index returned is not the index of that following instruction. *)
Lemma dispatcher_not_as_described :
  ~ dispatcher_as_described (snd (ValidateArchitectureAndJumpIfNeeded []))
                            (fst (ValidateArchitectureAndJumpIfNeeded [])).
Proof.
  rewrite ValidateArchitectureAndJumpIfNeeded_eq by (vm_compute; reflexivity).
  cbn [fst snd length app]. intros (c & j & Hc & Hj & Hcode & Hoff).
  assert (c = 1%nat) by lia. subst c.
  vm_compute in Hc. discriminate Hc.
Qed.

(** * The assembled program *)

Lemma not_allowed_passes (arm64_filter arm_filter : list sock_filter) a d :
  allow_or_pass (baseline arm64_filter arm_filter a) ->
  ~ allowed_under arm64_filter arm_filter a d ->
  baseline_passes (baseline arm64_filter arm_filter a) d /\ ~ In (nr d) (allow_list a).
Proof.
  intros Hfrag Hno. unfold allowed_under in Hno.
  destruct (Hfrag d) as [Hallow|Hpass]; [tauto|]. split; [exact Hpass | tauto].
Qed.

Lemma eval_policy_unlisted (arm64_filter arm_filter : list sock_filter) a d :
  arch d = arch_constant a ->
  baseline_passes (baseline arm64_filter arm_filter a) d ->
  ~ In (nr d) (allow_list a) ->
  eval (policy_program arm64_filter arm_filter) d = Ret SECCOMP_RET_TRAP.
Proof.
  intros Harch Hpass Hnin.
  destruct (eval_policy_section arm64_filter arm_filter a d Harch) as [rest ->].
  now apply result_section_unlisted.
Qed.

(** C4: default deny.  With tables that only allow or pass, an input of
    architecture [a] whose syscall number is neither in [a]'s explicit
    list nor allowed by [a]'s table evaluates to Trap in the installed
    program; the program is the prologue followed by the two sections,
    and a section's last instruction is the Trap. *)
Theorem default_deny (arm64_filter arm_filter : list sock_filter) prctl
    (a : architecture) (d : seccomp_data) :
  (length arm64_filter <= arm64_filter_max)%nat ->
  allow_or_pass (baseline arm64_filter arm_filter a) ->
  arch d = arch_constant a ->
  ~ allowed_under arm64_filter arm_filter a d ->
  exists p,
    installed_program arm64_filter arm_filter prctl = Some p
    /\ eval p d = Ret SECCOMP_RET_TRAP
    /\ p = dispatcher (Z.of_nat (length arm64_filter) + 31)
           ++ section_of arm64_filter arm64_allow_list
           ++ section_of arm_filter arm_allow_list
    /\ last (section_of (baseline arm64_filter arm_filter a) (allow_list a))
       = Some (RET SECCOMP_RET_TRAP).
Proof.
  intros Hn Hfrag Harch Hno.
  exists (policy_program arm64_filter arm_filter).
  split; [now apply installed_program_ok|].
  destruct (not_allowed_passes _ _ _ _ Hfrag Hno) as [Hpass Hnin].
  split; [now apply (eval_policy_unlisted _ _ a)|].
  split; [reflexivity|]. unfold section_of. apply last_snoc.
Qed.

Lemma sample_not_allowed_64 :
  ~ allowed_under sample_arm64_filter sample_arm_filter ARM64 (syscall ARM64 1).
Proof.
  intros [Hin|Hal].
  - vm_compute in Hin. intuition discriminate.
  - vm_compute in Hal. discriminate Hal.
Qed.

Lemma default_deny_witness :
  exists p,
    installed_program sample_arm64_filter sample_arm_filter kernel_accepts = Some p
    /\ eval p (syscall ARM64 1) = Ret SECCOMP_RET_TRAP.
Proof.
  destruct (default_deny sample_arm64_filter sample_arm_filter kernel_accepts
              ARM64 (syscall ARM64 1)) as (p & Hp & He & _).
  - vm_compute. lia.
  - exact sample_arm64_filter_allow_or_pass.
  - reflexivity.
  - exact sample_not_allowed_64.
  - exists p. split; assumption.
Defined.

(** C5: allow correctness.  For an entry of architecture [a]'s explicit
    list, an input with [a]'s architecture constant and that syscall
    number, on which [a]'s table passes, evaluates to Allow in the
    installed program. *)
Theorem allow_correctness (arm64_filter arm_filter : list sock_filter) prctl
    (a : architecture) (d : seccomp_data) :
  (length arm64_filter <= arm64_filter_max)%nat ->
  arch d = arch_constant a ->
  In (nr d) (allow_list a) ->
  baseline_passes (baseline arm64_filter arm_filter a) d ->
  exists p,
    installed_program arm64_filter arm_filter prctl = Some p
    /\ eval p d = Ret SECCOMP_RET_ALLOW.
Proof.
  intros Hn Harch Hin Hpass.
  exists (policy_program arm64_filter arm_filter).
  split; [now apply installed_program_ok|].
  destruct (eval_policy_section arm64_filter arm_filter a d Harch) as [rest ->].
  now apply result_section_listed.
Qed.

Lemma allow_correctness_witness :
  exists p,
    installed_program sample_arm64_filter sample_arm_filter kernel_accepts = Some p
    /\ eval p (syscall ARM32 363) = Ret SECCOMP_RET_ALLOW.
Proof.
  apply (allow_correctness sample_arm64_filter sample_arm_filter kernel_accepts
           ARM32 (syscall ARM32 363)).
  - vm_compute. lia.
  - reflexivity.
  - vm_compute. tauto.
  - vm_compute. reflexivity.
Defined.

(** C6: architecture isolation.  A syscall number allowed under
    architecture [B] and not under [A] (not in [A]'s list, not allowed by
    [A]'s table) evaluates to Trap on an input of architecture [A]. *)
Theorem architecture_isolation (arm64_filter arm_filter : list sock_filter) prctl
    (A B : architecture) (d : seccomp_data) :
  (length arm64_filter <= arm64_filter_max)%nat ->
  allow_or_pass (baseline arm64_filter arm_filter A) ->
  A <> B ->
  arch d = arch_constant A ->
  allowed_under arm64_filter arm_filter B d ->
  ~ allowed_under arm64_filter arm_filter A d ->
  exists p,
    installed_program arm64_filter arm_filter prctl = Some p
    /\ eval p d = Ret SECCOMP_RET_TRAP.
Proof.
  intros Hn Hfrag _ Harch _ Hno.
  exists (policy_program arm64_filter arm_filter).
  split; [now apply installed_program_ok|].
  destruct (not_allowed_passes _ _ _ _ Hfrag Hno) as [Hpass Hnin].
  now apply (eval_policy_unlisted _ _ A).
Qed.

(** Syscall 98, in the 64-bit list only, traps on a 32-bit input. *)
Lemma architecture_isolation_witness :
  exists p,
    installed_program sample_arm64_filter sample_arm_filter kernel_accepts = Some p
    /\ eval p (syscall ARM32 98) = Ret SECCOMP_RET_TRAP.
Proof.
  apply (architecture_isolation sample_arm64_filter sample_arm_filter kernel_accepts
           ARM32 ARM64 (syscall ARM32 98)).
  - vm_compute. lia.
  - exact sample_arm_filter_allow_or_pass.
  - discriminate.
  - reflexivity.
  - left. vm_compute. tauto.
  - intros [Hin|Hal].
    + vm_compute in Hin. intuition discriminate.
    + vm_compute in Hal. discriminate Hal.
Defined.

(** C7: dispatcher defaulting.  An input whose architecture word is
    neither constant evaluates to Trap, and the only instructions executed
    are the four of the prologue (indices 0 to 3): no instruction of
    either section is reached. *)
Theorem dispatcher_defaulting (arm64_filter arm_filter : list sock_filter) prctl
    (d : seccomp_data) :
  (length arm64_filter <= arm64_filter_max)%nat ->
  arch d <> AUDIT_ARCH_AARCH64 ->
  arch d <> AUDIT_ARCH_ARM ->
  exists p t rest,
    installed_program arm64_filter arm_filter prctl = Some p
    /\ p = dispatcher t ++ rest
    /\ eval p d = Ret SECCOMP_RET_TRAP
    /\ visited p d = [0; 1; 2; 3]%nat
    /\ Forall (fun pc => (pc < length (dispatcher t))%nat) (visited p d).
Proof.
  intros Hn H64 H32.
  exists (policy_program arm64_filter arm_filter),
         (Z.of_nat (length arm64_filter) + 31),
         (section_of arm64_filter arm64_allow_list ++ section_of arm_filter arm_allow_list).
  split; [now apply installed_program_ok|]. split; [reflexivity|].
  unfold eval, result, visited, policy_program.
  rewrite run_dispatcher_unknown by assumption. cbn [fst snd].
  split; [reflexivity|]. split; [reflexivity|].
  simpl length. repeat constructor.
Qed.

Lemma dispatcher_defaulting_witness :
  exists p,
    installed_program sample_arm64_filter sample_arm_filter kernel_accepts = Some p
    /\ eval p {| nr := 98; arch := 0xC000003E; instruction_pointer := 0; args := [] |}
       = Ret SECCOMP_RET_TRAP.
Proof.
  destruct (dispatcher_defaulting sample_arm64_filter sample_arm_filter kernel_accepts
              {| nr := 98; arch := 0xC000003E; instruction_pointer := 0; args := [] |})
    as (p & t & rest & Hp & _ & He & _).
  - vm_compute. lia.
  - vm_compute. discriminate.
  - vm_compute. discriminate.
  - exists p. split; assumption.
Defined.

(** * The duplicate entry of the 64-bit list *)

Lemma arm64_allow_list_once_eq :
  arm64_allow_list_once = [41; 31; 30; 178; 98; 220; 139; 240; 128; 278; 241; 130; 267].
Proof. reflexivity. Qed.

Lemma arm64_allow_list_once_In n :
  In n arm64_allow_list <-> In n arm64_allow_list_once.
Proof. rewrite arm64_allow_list_once_eq. unfold arm64_allow_list. simpl. tauto. Qed.

(** A section whose table stays inside: the table decides, or else the
    pairs decide on the accumulator the table leaves. *)
Lemma result_section_cases d frag al rest A :
  stays_inside frag d ->
  result d (section_of frag al ++ rest) 0 A
  = match fragment_result frag d with
    | Ret v => Ret v
    | Fault => Fault
    | Exit _ A' =>
        if in_dec Z.eq_dec A' al then Ret SECCOMP_RET_ALLOW else Ret SECCOMP_RET_TRAP
    end.
Proof.
  intros Hin. unfold section_of. cbn [app].
  rewrite result_exec, step_LOAD_nr, <- !app_assoc, result_app.
  specialize (Hin). unfold stays_inside, fragment_result in *.
  destruct (result d frag 0 (nr d)) as [v|n A'|] eqn:Hr; try reflexivity.
  destruct n as [|n]; [|exfalso; exact (Hin n A' eq_refl)].
  destruct (in_dec Z.eq_dec A' al) as [Hyes|Hno].
  - now apply result_allow_pairs_in.
  - rewrite result_app, result_allow_pairs_notin by exact Hno.
    cbn [app]. now rewrite result_exec, step_RET.
Qed.

(** A program of the assembled shape, whatever the 64-bit list. *)
Lemma eval_shape d (frag64 frag32 : list sock_filter) (al64 al32 : list Z) :
  stays_inside frag64 d ->
  eval (dispatcher (Z.of_nat (length (section_of frag64 al64)) + 1)
        ++ section_of frag64 al64 ++ section_of frag32 al32) d
  = if arch d =? AUDIT_ARCH_AARCH64 then
      match fragment_result frag64 d with
      | Ret v => Ret v
      | Fault => Fault
      | Exit _ A' =>
          if in_dec Z.eq_dec A' al64 then Ret SECCOMP_RET_ALLOW else Ret SECCOMP_RET_TRAP
      end
    else if arch d =? AUDIT_ARCH_ARM then result d (section_of frag32 al32) 0 (arch d)
    else Ret SECCOMP_RET_TRAP.
Proof.
  intros Hin.
  destruct (Z.eqb_spec (arch d) AUDIT_ARCH_AARCH64) as [H64|H64].
  - rewrite eval_dispatcher_arm64 by exact H64. now apply result_section_cases.
  - destruct (Z.eqb_spec (arch d) AUDIT_ARCH_ARM) as [H32|H32].
    + now apply eval_dispatcher_arm32.
    + unfold eval, result. now rewrite run_dispatcher_unknown.
Qed.

(** C9: the 64-bit section has two entries for syscall 128 (positions 8
    and 12 of its list).  With a 64-bit table that does not jump beyond
    the instruction after it, the installed program and the program
    assembled without the second entry give the same result on every
    input. *)
Theorem duplicate_entry_redundant (arm64_filter arm_filter : list sock_filter) prctl
    (d : seccomp_data) :
  (length arm64_filter <= arm64_filter_max)%nat ->
  stays_inside arm64_filter d ->
  arm64_allow_list !! 8%nat = Some 128
  /\ arm64_allow_list !! 12%nat = Some 128
  /\ exists p p',
       installed_program arm64_filter arm_filter prctl = Some p
       /\ assemble_with arm64_filter arm_filter (delete 12%nat arm64_allow_list) = Some p'
       /\ length p = (length p' + 2)%nat
       /\ eval p d = eval p' d.
Proof.
  intros Hn Hin. split; [reflexivity|]. split; [reflexivity|].
  fold arm64_allow_list_once.
  eexists _, _. split; [now apply installed_program_ok|].
  split; [now apply assemble_once_ok|]. split.
  - unfold policy_program, dispatcher. rewrite !length_app, !section_of_length.
    simpl length. lia.
  - unfold policy_program.
    replace (Z.of_nat (length arm64_filter) + 31)
      with (Z.of_nat (length (section_of arm64_filter arm64_allow_list)) + 1)
      by (rewrite section_of_length; simpl length; lia).
    rewrite !eval_shape by exact Hin.
    destruct (arch d =? AUDIT_ARCH_AARCH64); [|reflexivity].
    destruct (fragment_result arm64_filter d) as [v|n A'|]; try reflexivity.
    pose proof (arm64_allow_list_once_In A') as Hiff.
    destruct (in_dec Z.eq_dec A' arm64_allow_list),
             (in_dec Z.eq_dec A' arm64_allow_list_once); tauto.
Qed.

Lemma sample_arm64_filter_stays_inside d : stays_inside sample_arm64_filter d.
Proof.
  intros n A Hr.
  destruct (sample_arm64_filter_allow_or_pass d) as [H|H];
    unfold baseline_allows, baseline_passes in H; rewrite H in Hr; discriminate Hr.
Qed.

Lemma duplicate_entry_redundant_witness :
  exists p p',
    installed_program sample_arm64_filter sample_arm_filter kernel_accepts = Some p
    /\ assemble_with sample_arm64_filter sample_arm_filter (delete 12%nat arm64_allow_list)
       = Some p'
    /\ eval p (syscall ARM64 128) = eval p' (syscall ARM64 128).
Proof.
  destruct (duplicate_entry_redundant sample_arm64_filter sample_arm_filter kernel_accepts
              (syscall ARM64 128)) as (_ & _ & p & p' & Hp & Hp' & _ & He).
  - vm_compute. lia.
  - apply sample_arm64_filter_stays_inside.
  - exists p, p'. repeat split; assumption.
Defined.

(** Without the assumption on the table the two programs can differ: a
    table that is one jump over the next 24 instructions lands on the
    second compare against 128 in one program and on the compare against
    267 in the other. *)
Example duplicate_entry_overshooting_table :
  let table := [ {| code := 0x05; jt := 0; jf := 0; k := 24 |} ] in
  (installed_program table [] kernel_accepts ≫= fun p => Some (eval p (syscall ARM64 128)))
  = Some (Ret SECCOMP_RET_ALLOW)
  /\ (assemble_with table [] arm64_allow_list_once ≫= fun p => Some (eval p (syscall ARM64 128)))
     = Some (Ret SECCOMP_RET_TRAP).
Proof. split; vm_compute; reflexivity. Qed.

(** * The entry point *)

Lemma set_seccomp_filter_eq (arm64_filter arm_filter : list sock_filter) prctl (w : World) :
  Z.of_nat (length arm64_filter) + 34 < 2 ^ 64 ->
  set_seccomp_filter arm64_filter arm_filter prctl w
  = if 255 <? Z.of_nat (length arm64_filter) + 31
    then (true,
          ALOGE "Can't set jump greater than 255 - actual jump is %zu"
                [Z.of_nat (length arm64_filter) + 31] w)
    else install_filter prctl (policy_program arm64_filter arm_filter) w.
Proof.
  intros Hsz. rewrite set_seccomp_filter_fold.
  rewrite ValidateArchitectureAndJumpIfNeeded_eq by (simpl; lia).
  simpl length. simpl app.
  rewrite (section_append (dispatcher 1)) by exact arm64_allow_list_u32.
  cbv zeta. change (Z.of_nat 0 + 2) with 2.
  rewrite patch_dispatcher by (rewrite section_of_length; simpl length; lia).
  rewrite section_of_length. simpl length.
  replace (Z.of_nat (length arm64_filter + 2 * 14 + 2) + 1)
    with (Z.of_nat (length arm64_filter) + 31) by lia.
  destruct (255 <? _); [reflexivity|].
  simpl negb. cbv iota.
  rewrite section_append by exact arm_allow_list_u32.
  rewrite <- app_assoc. reflexivity.
Qed.

(** When the kernel refuses the program the process exits with status 1. *)
Lemma Seccomp_setPolicy_install_failure (arm64_filter arm_filter : list sock_filter)
    prctl (w : World) :
  (length arm64_filter <= arm64_filter_max)%nat ->
  (forall prog, prctl prog < 0) ->
  fst (Seccomp_setPolicy arm64_filter arm_filter prctl w) = exited 1.
Proof.
  unfold arm64_filter_max. intros Hn Hk. unfold Seccomp_setPolicy.
  rewrite set_seccomp_filter_eq by lia.
  destruct (Z.ltb_spec 255 (Z.of_nat (length arm64_filter) + 31)); [lia|].
  unfold install_filter.
  destruct (Z.ltb_spec (prctl {| len := u16 (vsize (policy_program arm64_filter arm_filter));
                                 filter_ptr := policy_program arm64_filter arm_filter |}) 0)
    as [Hneg|Hpos]; [reflexivity|].
  specialize (Hk {| len := u16 (vsize (policy_program arm64_filter arm_filter));
                    filter_ptr := policy_program arm64_filter arm_filter |}). lia.
Qed.

(** When the patch fails, [set_seccomp_filter] gives [true], the entry
    point returns and no program has been handed to the kernel. *)
Lemma Seccomp_setPolicy_patch_failure (arm64_filter arm_filter : list sock_filter)
    prctl (w : World) :
  (arm64_filter_max < length arm64_filter)%nat ->
  Z.of_nat (length arm64_filter) + 34 < 2 ^ 64 ->
  fst (set_seccomp_filter arm64_filter arm_filter prctl w) = true
  /\ fst (Seccomp_setPolicy arm64_filter arm_filter prctl w) = returned
  /\ prctl_calls (snd (Seccomp_setPolicy arm64_filter arm_filter prctl w)) = prctl_calls w.
Proof.
  unfold arm64_filter_max. intros Hn Hsz. unfold Seccomp_setPolicy.
  rewrite set_seccomp_filter_eq by lia.
  destruct (Z.ltb_spec 255 (Z.of_nat (length arm64_filter) + 31)); [|lia].
  repeat split.
Qed.

(** C1 at a 64-bit table of 225 instructions: the patcher reports a jump
    of 256 and fails, [set_seccomp_filter] returns [true] (its
    [return -1]), and [Seccomp_setPolicy] returns to its caller with no
    filter handed to the kernel. *)
Theorem Seccomp_setPolicy_returns_without_filter :
  let table := repeat (RET SECCOMP_RET_ALLOW) 225 in
  let w := {| prctl_calls := [];
              logcat := [ {| priority := LOG_ERROR;
                             format := "Can't set jump greater than 255 - actual jump is %zu";
                             zu_args := [256] |} ] |} in
  set_seccomp_filter table [] kernel_accepts empty_world = (true, w)
  /\ Seccomp_setPolicy table [] kernel_accepts empty_world = (returned, w).
Proof. split; vm_compute; reflexivity. Qed.

(** * Further properties of the builder *)

(** ** The entry point on a table that fits *)

Lemma u16_vsize (f : filter) : u16 (vsize f) = Z.of_nat (length f) mod 2 ^ 16.
Proof.
  unfold u16, vsize, size_t, SIZE_BITS.
  apply Z.mod_mod_divide. exists (2 ^ 48). reflexivity.
Qed.

Lemma policy_program_length (arm64_filter arm_filter : list sock_filter) :
  length (policy_program arm64_filter arm_filter)
  = (length arm64_filter + length arm_filter + 86)%nat.
Proof.
  unfold policy_program, dispatcher. rewrite !length_app, !section_of_length.
  simpl length. lia.
Qed.

(** X1: with a 64-bit table of at most 224 instructions, a call of
    [Seccomp_setPolicy] makes exactly one [prctl] call; the program handed
    over is the prologue followed by the two sections, of
    [arm64_filter_size + arm_filter_size + 86] instructions, with that
    count modulo 2^16 as its length field; the call returns when the
    kernel's answer is not negative and exits with status 1 when it is. *)
Theorem Seccomp_setPolicy_installs_once (arm64_filter arm_filter : list sock_filter)
    (prctl : sock_fprog -> Z) (w : World) :
  (length arm64_filter <= arm64_filter_max)%nat ->
  let prog := {| len := Z.of_nat (length arm64_filter + length arm_filter + 86) mod 2 ^ 16;
                 filter_ptr := policy_program arm64_filter arm_filter |} in
  length (filter_ptr prog) = (length arm64_filter + length arm_filter + 86)%nat
  /\ prctl_calls (snd (Seccomp_setPolicy arm64_filter arm_filter prctl w))
     = prctl_calls w ++ [prog]
  /\ fst (Seccomp_setPolicy arm64_filter arm_filter prctl w)
     = if prctl prog <? 0 then exited 1 else returned.
Proof.
  intros Hn prog. unfold arm64_filter_max in Hn.
  split; [apply policy_program_length|].
  unfold Seccomp_setPolicy. rewrite set_seccomp_filter_eq by lia.
  destruct (Z.ltb_spec 255 (Z.of_nat (length arm64_filter) + 31)) as [Hbig|_]; [lia|].
  unfold install_filter. rewrite u16_vsize, policy_program_length. fold prog.
  destruct (prctl prog <? 0); split; reflexivity.
Qed.

Lemma Seccomp_setPolicy_installs_once_witness :
  fst (Seccomp_setPolicy sample_arm64_filter sample_arm_filter kernel_refuses empty_world)
  = exited 1
  /\ fst (Seccomp_setPolicy sample_arm64_filter sample_arm_filter kernel_accepts empty_world)
     = returned.
Proof.
  assert (H : (length sample_arm64_filter <= arm64_filter_max)%nat) by (vm_compute; lia).
  split.
  - exact (proj2 (proj2 (Seccomp_setPolicy_installs_once sample_arm64_filter
                           sample_arm_filter kernel_refuses empty_world H))).
  - exact (proj2 (proj2 (Seccomp_setPolicy_installs_once sample_arm64_filter
                           sample_arm_filter kernel_accepts empty_world H))).
Defined.

(** X2: the patch in [set_seccomp_filter] succeeds, and a program reaches
    the kernel, exactly when the 64-bit table has at most 224
    instructions. *)
Theorem patch_succeeds_iff (arm64_filter arm_filter : list sock_filter)
    (prctl : sock_fprog -> Z) :
  Z.of_nat (length arm64_filter) + 34 < 2 ^ 64 ->
  (installed_program arm64_filter arm_filter prctl
   = Some (policy_program arm64_filter arm_filter)
   <-> (length arm64_filter <= 224)%nat)
  /\ (installed_program arm64_filter arm_filter prctl = None
      <-> (224 < length arm64_filter)%nat).
Proof.
  intros Hsz.
  destruct (Nat.le_gt_cases (length arm64_filter) 224) as [Hle|Hgt].
  - rewrite (installed_program_ok arm64_filter arm_filter prctl Hle).
    split; (split; [intros H | intros H]);
      try assumption; try reflexivity; try discriminate H; lia.
  - rewrite (installed_program_none arm64_filter arm_filter prctl Hgt Hsz).
    split; (split; [intros H | intros H]);
      try assumption; try reflexivity; try discriminate H; lia.
Qed.

Lemma patch_succeeds_iff_witness :
  installed_program sample_arm64_filter sample_arm_filter kernel_accepts
  = Some (policy_program sample_arm64_filter sample_arm_filter).
Proof.
  apply (patch_succeeds_iff sample_arm64_filter sample_arm_filter kernel_accepts).
  - vm_compute. reflexivity.
  - vm_compute. lia.
Defined.

(** ** What the installed program decides *)

Lemma arch_constant_inj a b : arch_constant a = arch_constant b -> a = b.
Proof. destruct a, b; intros H; try reflexivity; vm_compute in H; discriminate H. Qed.

Lemma eval_policy_arch (arm64_filter arm_filter : list sock_filter) a d :
  allow_or_pass (baseline arm64_filter arm_filter a) ->
  arch d = arch_constant a ->
  (allowed_under arm64_filter arm_filter a d
   /\ eval (policy_program arm64_filter arm_filter) d = Ret SECCOMP_RET_ALLOW)
  \/ (~ allowed_under arm64_filter arm_filter a d
      /\ eval (policy_program arm64_filter arm_filter) d = Ret SECCOMP_RET_TRAP).
Proof.
  intros Hfrag Harch.
  destruct (eval_policy_section arm64_filter arm_filter a d Harch) as [rest He].
  destruct (Hfrag d) as [Hallow|Hpass].
  - left. split; [now right|]. rewrite He. now apply result_section_decided.
  - destruct (in_dec Z.eq_dec (nr d) (allow_list a)) as [Hin|Hnin].
    + left. split; [now left|]. rewrite He. now apply result_section_listed.
    + right. split.
      * intros [Hin|Hallow]; [tauto|].
        unfold baseline_allows, baseline_passes in *. rewrite Hpass in Hallow.
        discriminate Hallow.
      * rewrite He. now apply result_section_unlisted.
Qed.

(** X3: with tables that only allow or pass, the installed program
    decides every input: the result is Allow or Trap, and it is Allow
    exactly when the architecture word is the constant of one of the two
    architectures and the syscall number is allowed under that
    architecture (by its explicit list or by its table). *)
Theorem installed_program_decision (arm64_filter arm_filter : list sock_filter)
    (prctl : sock_fprog -> Z) :
  (length arm64_filter <= arm64_filter_max)%nat ->
  allow_or_pass arm64_filter ->
  allow_or_pass arm_filter ->
  exists p,
    installed_program arm64_filter arm_filter prctl = Some p
    /\ forall d,
         (eval p d = Ret SECCOMP_RET_ALLOW \/ eval p d = Ret SECCOMP_RET_TRAP)
         /\ (eval p d = Ret SECCOMP_RET_ALLOW
             <-> exists a, arch d = arch_constant a
                           /\ allowed_under arm64_filter arm_filter a d).
Proof.
  intros Hn H64 H32. exists (policy_program arm64_filter arm_filter).
  split; [now apply installed_program_ok|]. intros d.
  assert (Hfrag : forall a, allow_or_pass (baseline arm64_filter arm_filter a))
    by (intros [|]; assumption).
  assert (Hne : Ret SECCOMP_RET_TRAP <> Ret SECCOMP_RET_ALLOW) by discriminate.
  destruct (Z.eq_dec (arch d) AUDIT_ARCH_AARCH64) as [E64|N64];
    [|destruct (Z.eq_dec (arch d) AUDIT_ARCH_ARM) as [E32|N32]].
  - destruct (eval_policy_arch arm64_filter arm_filter ARM64 d (Hfrag ARM64) E64)
      as [[Hal He]|[Hno He]]; rewrite He.
    + split; [now left|]. split; [intros _; now exists ARM64 | reflexivity].
    + split; [now right|]. split; [intros H; congruence|].
      intros (a & Ha & Hal). exfalso.
      assert (a = ARM64) by (apply arch_constant_inj; simpl; congruence).
      subst a. tauto.
  - destruct (eval_policy_arch arm64_filter arm_filter ARM32 d (Hfrag ARM32) E32)
      as [[Hal He]|[Hno He]]; rewrite He.
    + split; [now left|]. split; [intros _; now exists ARM32 | reflexivity].
    + split; [now right|]. split; [intros H; congruence|].
      intros (a & Ha & Hal). exfalso.
      assert (a = ARM32) by (apply arch_constant_inj; simpl; congruence).
      subst a. tauto.
  - assert (He : eval (policy_program arm64_filter arm_filter) d = Ret SECCOMP_RET_TRAP).
    { unfold eval, result, policy_program. now rewrite run_dispatcher_unknown. }
    rewrite He. split; [now right|]. split; [intros H; congruence|].
    intros ([|] & Ha & _); simpl in Ha; congruence.
Qed.

Lemma installed_program_decision_witness :
  exists p,
    installed_program sample_arm64_filter sample_arm_filter kernel_accepts = Some p
    /\ eval p (syscall ARM64 57) = Ret SECCOMP_RET_ALLOW.
Proof.
  destruct (installed_program_decision sample_arm64_filter sample_arm_filter kernel_accepts)
    as (p & Hp & Hd).
  - vm_compute. lia.
  - exact sample_arm64_filter_allow_or_pass.
  - exact sample_arm_filter_allow_or_pass.
  - exists p. split; [exact Hp|].
    apply (Hd (syscall ARM64 57)). exists ARM64. split; [reflexivity|].
    right. vm_compute. reflexivity.
Defined.




(** ** Runs of [AllowSyscall] calls *)

(** X5: what a run of [AllowSyscall] calls does depends only on the set of
    numbers: two runs over lists with the same members, followed by the
    same instructions, give the same result on every accumulator, whatever
    the order of the calls and however often a number is repeated. *)
Theorem AllowSyscall_runs_as_set (l l' : list Z) :
  Forall is_u32 l -> Forall is_u32 l' ->
  (forall n, In n l <-> In n l') ->
  forall d (rest : filter) (A : Z),
    result d (fold_left AllowSyscall l [] ++ rest) 0 A
    = result d (fold_left AllowSyscall l' [] ++ rest) 0 A.
Proof.
  intros Hl Hl' Hsame d rest A.
  rewrite !fold_AllowSyscall by assumption. cbn [app].
  destruct (in_dec Z.eq_dec A l) as [Hin|Hnin].
  - rewrite !result_allow_pairs_in; [reflexivity | now apply Hsame | exact Hin].
  - rewrite !result_app, !result_allow_pairs_notin; [reflexivity | | exact Hnin].
    intros Hin'. apply Hnin. now apply Hsame.
Qed.

Lemma AllowSyscall_runs_as_set_witness :
  result (syscall ARM64 98) (fold_left AllowSyscall [98; 220; 98] [] ++ [RET SECCOMP_RET_TRAP]) 0 98
  = result (syscall ARM64 98) (fold_left AllowSyscall [220; 98] [] ++ [RET SECCOMP_RET_TRAP]) 0 98.
Proof.
  apply AllowSyscall_runs_as_set.
  - unfold is_u32. repeat constructor; lia.
  - unfold is_u32. repeat constructor; lia.
  - intros n. simpl. tauto.
Defined.

(** ** The patcher on an index that is not in the vector *)



(** ** The prologue before it is patched *)

(** X7: as [ValidateArchitectureAndJumpIfNeeded] leaves it, the prologue
    accepts both architectures into the instructions that follow it: on
    the 64-bit and on the 32-bit constant evaluation continues at the
    first instruction after the prologue, with the architecture word in
    the accumulator, and on any other word it traps. *)
Theorem ValidateArchitectureAndJumpIfNeeded_unpatched (rest : filter) (d : seccomp_data) :
  eval (snd (ValidateArchitectureAndJumpIfNeeded []) ++ rest) d
  = if (arch d =? AUDIT_ARCH_AARCH64) || (arch d =? AUDIT_ARCH_ARM)
    then result d rest 0 (arch d)
    else Ret SECCOMP_RET_TRAP.
Proof.
  rewrite ValidateArchitectureAndJumpIfNeeded_eq by (vm_compute; reflexivity).
  cbn [snd length app].
  destruct (Z.eqb_spec (arch d) AUDIT_ARCH_AARCH64) as [E64|N64].
  - cbn [orb]. now apply eval_dispatcher_arm64.
  - cbn [orb]. destruct (Z.eqb_spec (arch d) AUDIT_ARCH_ARM) as [E32|N32].
    + change rest with ([] ++ rest) at 1.
      now apply (eval_dispatcher_arm32 d [] rest).
    + unfold eval, result. now rewrite run_dispatcher_unknown.
Qed.

(** ** The errno return *)

Lemma land_ldiff (a b c : Z) : Z.land a (Z.ldiff b c) = Z.ldiff (Z.land a b) c.
Proof.
  apply Z.bits_inj'. intros n Hn.
  rewrite Z.land_spec, !Z.ldiff_spec, Z.land_spec.
  now rewrite andb_assoc.
Qed.

(** X8: for a 16-bit [retcode], [Error] appends one return instruction
    whose value carries the errno action in its action bits and [retcode]
    in its data bits, and evaluation of that instruction returns this
    value. *)
Theorem Error_action_and_data (f : filter) (retcode : Z) :
  0 <= retcode < 2 ^ 16 ->
  Error f retcode = f ++ [RET (SECCOMP_RET_ERRNO + retcode)]
  /\ Z.land (SECCOMP_RET_ERRNO + retcode) SECCOMP_RET_ACTION = SECCOMP_RET_ERRNO
  /\ Z.land (SECCOMP_RET_ERRNO + retcode) SECCOMP_RET_DATA = retcode
  /\ forall d (rest : filter) (A : Z),
       result d (Error [] retcode ++ rest) 0 A = Ret (SECCOMP_RET_ERRNO + retcode).
Proof.
  intros Hrc.
  assert (HE : forall g, Error g retcode = g ++ [RET (SECCOMP_RET_ERRNO + retcode)]).
  { intros g. unfold Error, push_back, BPF_STMT, RET.
    assert (Hrc16 : u16 retcode = retcode) by (apply Z.mod_small; lia).
    rewrite Hrc16, u32_small by (unfold is_u32, SECCOMP_RET_ERRNO; lia).
    reflexivity. }
  split; [apply HE|].
  set (v := SECCOMP_RET_ERRNO + retcode).
  assert (Hdiv : v / 2 ^ 16 = 5).
  { unfold v, SECCOMP_RET_ERRNO. change 327680 with (5 * 2 ^ 16).
    rewrite Z.add_comm, Z.div_add by lia. rewrite Z.div_small; lia. }
  assert (Hmod : v mod 2 ^ 16 = retcode).
  { unfold v, SECCOMP_RET_ERRNO. change 327680 with (5 * 2 ^ 16).
    rewrite Z.add_comm, Z.mod_add by lia. apply Z.mod_small. lia. }
  split; [|split].
  - change SECCOMP_RET_ACTION with (Z.ldiff (Z.ones 31) (Z.ones 16)).
    rewrite land_ldiff, Z.land_ones by lia.
    rewrite (Z.mod_small v) by (unfold v, SECCOMP_RET_ERRNO; lia).
    rewrite Z.ldiff_ones_r by lia.
    rewrite Z.shiftr_div_pow2, Hdiv by lia. reflexivity.
  - change SECCOMP_RET_DATA with (Z.ones 16).
    rewrite Z.land_ones by lia. exact Hmod.
  - intros d rest A. rewrite HE. cbn [app].
    now rewrite result_exec, step_RET.
Qed.

Lemma Error_action_and_data_witness :
  Error [] 13 = [RET (SECCOMP_RET_ERRNO + 13)]
  /\ Z.land (SECCOMP_RET_ERRNO + 13) SECCOMP_RET_ACTION = SECCOMP_RET_ERRNO
  /\ Z.land (SECCOMP_RET_ERRNO + 13) SECCOMP_RET_DATA = 13.
Proof.
  assert (H : 0 <= 13 < 2 ^ 16) by lia.
  pose proof (Error_action_and_data [] 13 H) as (H1 & H2 & H3 & _).
  split; [exact H1|]. split; [exact H2 | exact H3].
Defined.

(** ** Which instructions an input executes *)

Lemma run_trace_bounds d l : forall skip pc A,
  Forall (fun x => (pc + skip <= x < pc + length l)%nat) (fst (run d l skip pc A)).
Proof.
  induction l as [|i l IH]; intros skip pc A; simpl; [constructor|].
  destruct skip as [|n].
  - destruct (step d i A) as [v|A' n|].
    + repeat constructor; lia.
    + specialize (IH n (S pc) A'). destruct (run d l n (S pc) A') as [t o].
      simpl in *. constructor; [lia|].
      eapply List.Forall_impl; [|exact IH]. simpl. intros x Hx. lia.
    + repeat constructor; lia.
  - specialize (IH n (S pc) A).
    eapply List.Forall_impl; [|exact IH]. simpl. intros x Hx. lia.
Qed.

Lemma run_exec d i l pc A :
  run d (i :: l) 0 pc A
  = match step d i A with
    | Halt v => ([pc], Ret v)
    | Bad => ([pc], Fault)
    | Next A' n => let '(t, o) := run d l n (S pc) A' in (pc :: t, o)
    end.
Proof. reflexivity. Qed.

(** A run that ends inside the first part of a concatenation does not
    depend on the second part. *)
Lemma run_app_decided d a b : forall skip pc A,
  (forall n A', snd (run d a skip pc A) <> Exit n A') ->
  run d (a ++ b) skip pc A = run d a skip pc A.
Proof.
  induction a as [|i a IH]; intros skip pc A Hno.
  - exfalso. exact (Hno skip A eq_refl).
  - simpl in Hno |- *. destruct skip as [|n].
    + destruct (step d i A) as [v|A' n|]; try reflexivity.
      rewrite IH; [reflexivity|].
      intros m B HB. apply (Hno m B).
      destruct (run d a n (S pc) A') as [t o]. exact HB.
    + apply IH. exact Hno.
Qed.

Lemma policy_program_starts (arm64_filter arm_filter : list sock_filter) :
  policy_program arm64_filter arm_filter !! section64_start = Some (LOAD syscall_nr)
  /\ policy_program arm64_filter arm_filter !! section32_start arm64_filter
     = Some (LOAD syscall_nr).
Proof.
  unfold policy_program, section64_start, section32_start. split; [reflexivity|].
  rewrite app_assoc, lookup_app_r
    by (rewrite length_app, section_of_length; simpl length; lia).
  rewrite length_app, section_of_length. simpl length.
  replace (length arm64_filter + 34 - (4 + (length arm64_filter + 2 * 14 + 2)))%nat
    with 0%nat by lia.
  reflexivity.
Qed.

(** X4: the two sections start at indices 4 and
    [arm64_filter_size + 34] of the installed program, each with the load
    of the syscall number.  An input with the 32-bit constant executes
    only the first three instructions of the prologue and instructions of
    the 32-bit section, never one of the 64-bit section; an input with the
    64-bit constant, on a 64-bit table that does not jump beyond the
    instruction following it, executes no instruction of the 32-bit
    section. *)
Theorem sections_do_not_mix (arm64_filter arm_filter : list sock_filter)
    (prctl : sock_fprog -> Z) (d : seccomp_data) :
  (length arm64_filter <= arm64_filter_max)%nat ->
  exists p,
    installed_program arm64_filter arm_filter prctl = Some p
    /\ p !! section64_start = Some (LOAD syscall_nr)
    /\ p !! section32_start arm64_filter = Some (LOAD syscall_nr)
    /\ (arch d = AUDIT_ARCH_ARM ->
        Forall (fun pc => (pc < 3 \/ section32_start arm64_filter <= pc)%nat) (visited p d))
    /\ (arch d = AUDIT_ARCH_AARCH64 -> stays_inside arm64_filter d ->
        Forall (fun pc => (pc < section32_start arm64_filter)%nat) (visited p d)).
Proof.
  intros Hn. unfold arm64_filter_max in Hn.
  exists (policy_program arm64_filter arm_filter).
  split; [now apply installed_program_ok|].
  destruct (policy_program_starts arm64_filter arm_filter) as [Hs64 Hs32].
  split; [exact Hs64|]. split; [exact Hs32|]. split.
  - intros H32. unfold visited, policy_program, dispatcher. cbn [app].
    remember (RET SECCOMP_RET_TRAP
              :: section_of arm64_filter arm64_allow_list
                 ++ section_of arm_filter arm_allow_list) as tail eqn:Htail.
    assert (Hne : (arch d =? AUDIT_ARCH_AARCH64) = false) by (rewrite H32; reflexivity).
    rewrite run_exec, step_LOAD_arch, run_exec, step_JEQ, Hne.
    change (Z.to_nat 0) with 0%nat.
    rewrite run_exec, step_JEQ. rewrite H32 at 1. rewrite Z.eqb_refl.
    pose proof (run_trace_bounds d tail (Z.to_nat (Z.of_nat (length arm64_filter) + 31))
                  3 (arch d)) as Hb.
    destruct (run d tail (Z.to_nat (Z.of_nat (length arm64_filter) + 31)) 3 (arch d))
      as [t o].
    cbn [fst] in *. unfold section32_start.
    repeat (constructor; [lia|]).
    eapply List.Forall_impl; [|exact Hb]. simpl. intros x Hx. lia.
  - intros H64 Hin. unfold visited.
    assert (Hsplit : policy_program arm64_filter arm_filter
                     = (dispatcher (Z.of_nat (length arm64_filter) + 31)
                        ++ section_of arm64_filter arm64_allow_list)
                       ++ section_of arm_filter arm_allow_list)
      by (unfold policy_program; now rewrite app_assoc).
    rewrite Hsplit, run_app_decided.
    + pose proof (run_trace_bounds d
                    (dispatcher (Z.of_nat (length arm64_filter) + 31)
                     ++ section_of arm64_filter arm64_allow_list) 0 0 0) as Hb.
      rewrite length_app, section_of_length in Hb. simpl length in Hb.
      eapply List.Forall_impl; [|exact Hb]. cbv beta. intros x Hx.
      unfold section32_start. lia.
    + intros n A. fold (result d (dispatcher (Z.of_nat (length arm64_filter) + 31)
                                  ++ section_of arm64_filter arm64_allow_list) 0 0).
      fold (eval (dispatcher (Z.of_nat (length arm64_filter) + 31)
                  ++ section_of arm64_filter arm64_allow_list) d).
      rewrite eval_dispatcher_arm64 by exact H64.
      rewrite <- (app_nil_r (section_of arm64_filter arm64_allow_list)).
      rewrite result_section_cases by exact Hin.
      destruct (fragment_result arm64_filter d); try discriminate.
      destruct (in_dec _ _ _); discriminate.
Qed.

Lemma sections_do_not_mix_witness :
  exists p,
    installed_program sample_arm64_filter sample_arm_filter kernel_accepts = Some p
    /\ Forall (fun pc => (pc < 3 \/ section32_start sample_arm64_filter <= pc)%nat)
              (visited p (syscall ARM32 98)).
Proof.
  destruct (sections_do_not_mix sample_arm64_filter sample_arm_filter kernel_accepts
              (syscall ARM32 98)) as (p & Hp & _ & _ & H32 & _).
  - vm_compute. lia.
  - exists p. split; [exact Hp|]. apply H32. reflexivity.
Defined.
